(** * Emergency-reparent replication utilities (go/vt/vtctl/reparentutil/replication.go)

    A shallow embedding of [FindPositionsOfAllCandidates], [SetReplicationSource]
    and [stopReplicationAndBuildStatusMaps] with its closure [fillStatus].

    Conventions.
    - Go maps are [gmap]s.  A [for ... range m] loop visits the entries of [m]
      in an unspecified order, so every such loop takes the visit order as an
      argument, constrained to be a permutation of the map's entries.
    - Go's [(value, error)] returns are the sum type [result].
    - Calls to collaborators (tablet manager RPCs, topology server, durability
      policy) are logged as [event]s, so that "is never called" is a
      statement about the log.
    - The goroutines of [stopReplicationAndBuildStatusMaps] only interact
      through the mutex-protected snapshot and the error channel; an execution
      is therefore described by the order in which the goroutines finish. *)

From stdpp Require Import gmap strings list fin_maps pretty.
From Stdlib Require Import ZArith.

Local Open Scope Z_scope.

(** ** Errors (vterrors) *)

Module vtrpc.
Inductive Code : Type :=
| Code_UNAVAILABLE
| Code_FAILED_PRECONDITION
| Code_INVALID_ARGUMENT.
End vtrpc.

Module sqlerror.
(** The part of [*sqlerror.SQLError] the code looks at: its error number. *)
Record SQLError : Type := { Number : Z }.
End sqlerror.

(** Go [error] values.  [Errorf] and [Wrapf] are the two constructors of
    vterrors used by this file; a format argument is a string or an error.
    [SQLErrorPtr p] is an error whose dynamic type is [*sqlerror.SQLError]
    ([p = None] is the nil pointer); [Opaque_error] is any other error
    produced by a collaborator. *)
Inductive error : Type :=
| Errorf (code : vtrpc.Code) (format : string) (args : list fmtarg)
| Wrapf (cause : error) (format : string) (args : list fmtarg)
| SQLErrorPtr (p : option sqlerror.SQLError)
| Opaque_error (msg : string)
with fmtarg : Type :=
| ArgString (s : string)
| ArgError (e : error).

Inductive result (A : Type) : Type :=
| Ok (a : A)
| Err (e : error).
Arguments Ok {A} a.
Arguments Err {A} e.

Definition is_Ok {A} (r : result A) : bool :=
  match r with Ok _ => true | Err _ => false end.

(** ** Protocol buffer messages (replicationdatapb, topodatapb) *)

Module Status.
Record t : Type := {
  Position : string;
  RelayLogPosition : string;
  BackupRunning : bool
}.
End Status.

Module StopReplicationStatus.
Record t : Type := {
  Before : option Status.t;
  After : option Status.t
}.
End StopReplicationStatus.

Module PrimaryStatus.
Record t : Type := {
  Position : string;
  FilePosition : string
}.
End PrimaryStatus.

Module TabletAlias.
Record t : Type := { Cell : string; Uid : Z }.
End TabletAlias.

Module Tablet.
Record t : Type := {
  Alias : option TabletAlias.t;
  Keyspace : string;
  Shard : string
}.
End Tablet.

(** [topo.TabletInfo] embeds the tablet record. *)
Module TabletInfo.
Record t : Type := { Tablet : Tablet.t }.
End TabletInfo.

(** ** The replication package (go/mysql/replication)

    Its sources are not part of this development; the code below uses it
    through the following interface only. *)

Module ReplicationStatus.
Record t (P : Type) : Type := {
  Position : P;
  RelayLogPosition : P
}.
Arguments Position {P} _.
Arguments RelayLogPosition {P} _.
End ReplicationStatus.

Class Replication : Type := {
  (** [replication.Position] *)
  Position : Type;
  (** the type assertion [p.GTIDSet.(replication.Mysql56GTIDSet)] succeeds *)
  IsMysql56GTIDSet : Position → bool;
  (** [p.IsZero()] *)
  IsZero : Position → bool;
  (** [replication.DecodePosition] *)
  DecodePosition : string → result Position;
  (** [replication.ProtoToReplicationStatus], applied to a possibly nil status *)
  ProtoToReplicationStatus : option Status.t → ReplicationStatus.t Position
}.

(** ** concurrency.FirstErrorRecorder *)

Module FirstErrorRecorder.
(** Modelled from the spec: the recorder type is declared in
    go/vt/concurrency, outside this file.  It holds the deferred error of
    section 4.4 step 3: the first error it was given, if any. *)
Definition t : Type := option error.
Definition empty : t := None.
(** Modelled from the spec: recording keeps the first error (section 4.4
    step 3, "record a deferred error"). *)
Definition RecordError (e : error) (r : t) : t :=
  match r with
  | None => Some e
  | Some _ => r
  end.
(** Modelled from the spec: whether an error was recorded. *)
Definition HasErrors (r : t) : bool := bool_decide (is_Some r).
(** Modelled from the spec: the recorded error, nil when there is none. *)
Definition Error (r : t) : option error := r.
End FirstErrorRecorder.

(** ** FindPositionsOfAllCandidates *)

Section FindPositions.
Context {R : Replication}.

Definition msg_no_relay_log_position : string :=
  "encountered tablet %v with no relay log position, when at least one other tablet in the status map has GTID based relay log positions".
Definition msg_mixed_relay_logs : string :=
  "encountered mix of GTID-based and non GTID-based relay logs".
Definition msg_decode_primary : string :=
  "could not decode a primary status executed position for tablet %v: %v".

(** Lines 54-57: build the replication status map from the proto types. *)
Definition buildReplicationStatusMap
    (range : list (string * StopReplicationStatus.t))
    : gmap string (ReplicationStatus.t Position) :=
  foldl (λ m '(alias, statuspb),
           <[alias := ProtoToReplicationStatus (StopReplicationStatus.After statuspb)]> m)
        ∅ range.

(** The variables declared at lines 61-65. *)
Record relayScan : Type := {
  isGTIDBased : bool;
  isNonGTIDBased : bool;
  emptyRelayPosErrorRecorder : FirstErrorRecorder.t
}.

(** One iteration of the loop at lines 67-80. *)
Definition scanStep (s : relayScan) (entry : string * ReplicationStatus.t Position)
    : relayScan :=
  let '(alias, status) := entry in
  let s1 :=
    if IsMysql56GTIDSet (ReplicationStatus.RelayLogPosition status)
    then {| isGTIDBased := true;
            isNonGTIDBased := isNonGTIDBased s;
            emptyRelayPosErrorRecorder := emptyRelayPosErrorRecorder s |}
    else {| isGTIDBased := isGTIDBased s;
            isNonGTIDBased := true;
            emptyRelayPosErrorRecorder := emptyRelayPosErrorRecorder s |} in
  if IsZero (ReplicationStatus.RelayLogPosition status)
  then {| isGTIDBased := isGTIDBased s1;
          isNonGTIDBased := isNonGTIDBased s1;
          emptyRelayPosErrorRecorder :=
            FirstErrorRecorder.RecordError
              (Errorf vtrpc.Code_UNAVAILABLE msg_no_relay_log_position [ArgString alias])
              (emptyRelayPosErrorRecorder s1) |}
  else s1.

Definition scanRelayLogs (range : list (string * ReplicationStatus.t Position))
    : relayScan :=
  foldl scanStep
        {| isGTIDBased := false; isNonGTIDBased := false;
           emptyRelayPosErrorRecorder := FirstErrorRecorder.empty |}
        range.

(** Lines 91-98: store the final positions in the map. *)
Definition storePositions (gtid : bool)
    (range : list (string * ReplicationStatus.t Position))
    (positionMap : gmap string Position) : gmap string Position :=
  foldl (λ m '(alias, status),
           if negb gtid
           then <[alias := ReplicationStatus.Position status]> m
           else <[alias := ReplicationStatus.RelayLogPosition status]> m)
        positionMap range.

(** Lines 100-107: overwrite with the primaries' executed positions; the
    first position that does not decode aborts the loop. *)
Fixpoint storePrimaryPositions
    (range : list (string * PrimaryStatus.t))
    (positionMap : gmap string Position) : result (gmap string Position) :=
  match range with
  | [] => Ok positionMap
  | (alias, primaryStatus) :: rest =>
      match DecodePosition (PrimaryStatus.Position primaryStatus) with
      | Err err => Err (Wrapf err msg_decode_primary [ArgString alias; ArgError err])
      | Ok executedPosition =>
          storePrimaryPositions rest (<[alias := executedPosition]> positionMap)
      end
  end.

(** The visit orders of the four [range] loops, in source order. *)
Record rangeOrders : Type := {
  range54 : list (string * StopReplicationStatus.t);
  range67 : list (string * ReplicationStatus.t Position);
  range91 : list (string * ReplicationStatus.t Position);
  range100 : list (string * PrimaryStatus.t)
}.

(** The orders are those of loops over [statusMap], over
    [replicationStatusMap] (twice) and over [primaryStatusMap]. *)
Definition ranges_of
    (statusMap : gmap string StopReplicationStatus.t)
    (primaryStatusMap : gmap string PrimaryStatus.t)
    (o : rangeOrders) : Prop :=
  range54 o ≡ₚ map_to_list statusMap ∧
  range67 o ≡ₚ map_to_list (buildReplicationStatusMap (range54 o)) ∧
  range91 o ≡ₚ map_to_list (buildReplicationStatusMap (range54 o)) ∧
  range100 o ≡ₚ map_to_list primaryStatusMap.

Definition FindPositionsOfAllCandidates (o : rangeOrders)
    : result (gmap string Position * bool) :=
  let replicationStatusMap := buildReplicationStatusMap (range54 o) in
  let positionMap : gmap string Position := ∅ in
  let s := scanRelayLogs (range67 o) in
  if isGTIDBased s && FirstErrorRecorder.HasErrors (emptyRelayPosErrorRecorder s)
  then match FirstErrorRecorder.Error (emptyRelayPosErrorRecorder s) with
       | Some e => Err e
       | None => Ok (∅, false) (* [return nil, false, nil]: a nil map reads as empty *)
       end
  else if isGTIDBased s && isNonGTIDBased s
  then Err (Errorf vtrpc.Code_FAILED_PRECONDITION msg_mixed_relay_logs [])
  else
    let positionMap := storePositions (isGTIDBased s) (range91 o) positionMap in
    match storePrimaryPositions (range100 o) positionMap with
    | Err e => Err e
    | Ok positionMap => Ok (positionMap, isGTIDBased s)
    end.

(** The relay-log and plain positions of a node of [statusMap], as the
    loops see them. *)
Definition relayPositionOf (statuspb : StopReplicationStatus.t) : Position :=
  ReplicationStatus.RelayLogPosition
    (ProtoToReplicationStatus (StopReplicationStatus.After statuspb)).

Definition plainPositionOf (statuspb : StopReplicationStatus.t) : Position :=
  ReplicationStatus.Position
    (ProtoToReplicationStatus (StopReplicationStatus.After statuspb)).

End FindPositions.

(** ** Collaborators and their call log *)

Inductive StopReplicationMode : Type :=
| StopReplicationMode_IOANDSQLTHREAD
| StopReplicationMode_IOTHREADONLY.

(** [tmclient.TabletManagerClient]: the three RPCs this file issues.  An RPC
    is issued at most once per tablet in one pass, so its outcome is a
    function of the tablet. *)
Module tmclient.
Class TabletManagerClient : Type := {
  StopReplicationAndGetStatus :
    Tablet.t → StopReplicationMode → result StopReplicationStatus.t;
  DemotePrimary : Tablet.t → result PrimaryStatus.t;
  (** tablet, parent, timeCreatedNS, waitPosition, forceStartReplication,
      semiSync, heartbeatInterval; returns the error, if any *)
  SetReplicationSource :
    Tablet.t → option TabletAlias.t → Z → string → bool → bool → Z → option error
}.
End tmclient.

(** The topology collaborator: [topotools.GetShardPrimaryForTablet],
    the topology server's [GetKeyspaceDurability] and [topoproto.TabletAliasString]. *)
Class Topology : Type := {
  GetShardPrimaryForTablet : Tablet.t → result TabletInfo.t;
  GetKeyspaceDurability : string → result string;
  TabletAliasString : TabletAlias.t → string
}.

(** The durability-policy collaborator: [policy.Durabler],
    [policy.GetDurabilityPolicy], [policy.IsReplicaSemiSync], and the
    package's fencing check [haveRevoked]. *)
Class DurabilityPolicies : Type := {
  Durabler : Type;
  GetDurabilityPolicy : string → result Durabler;
  IsReplicaSemiSync : Durabler → Tablet.t → Tablet.t → bool;
  haveRevoked : Durabler → list Tablet.t → list Tablet.t → bool
}.

(** [sqlerror.NewSQLErrorFromError] and the error number [ERNotReplica]. *)
Class SQLErrors : Type := {
  NewSQLErrorFromError : error → error;
  ERNotReplica : Z
}.

Inductive event : Type :=
| EvStopReplicationAndGetStatus (tablet : Tablet.t) (mode : StopReplicationMode)
| EvDemotePrimary (tablet : Tablet.t)
| EvHaveRevoked (reachableTablets allTablets : list Tablet.t)
| EvGetShardPrimaryForTablet (tablet : Tablet.t)
| EvGetKeyspaceDurability (keyspace : string)
| EvGetDurabilityPolicy (name : string)
| EvIsReplicaSemiSync (primary replica : Tablet.t)
| EvSetReplicationSource (tablet : Tablet.t) (parent : option TabletAlias.t)
    (semiSync : bool).

(** A computation that logs its calls to collaborators. *)
Definition Logged (A : Type) : Type := A * list event.

Definition ret {A} (a : A) : Logged A := (a, []).
Definition bind {A B} (c : Logged A) (k : A → Logged B) : Logged B :=
  let '(a, l1) := c in
  let '(b, l2) := k a in
  (b, l1 ++ l2).
Definition call {A} (ev : event) (outcome : A) : Logged A := (outcome, [ev]).

Notation "'call!' x ':=' c1 'in' c2" := (bind c1 (λ x, c2))
  (at level 10, x name, c1 at level 100, c2 at level 200).

(** ** SetReplicationSource *)

Section SetReplicationSource.
Context {tmc : tmclient.TabletManagerClient} {ts : Topology}
        {dp : DurabilityPolicies}.

Definition SetReplicationSource (tablet : Tablet.t) : Logged (option error) :=
  call! r := call (EvGetShardPrimaryForTablet tablet)
                  (GetShardPrimaryForTablet tablet) in
  match r with
  | Err _ =>
      (* If we didn't find the shard primary, we return without any error *)
      ret None
  | Ok shardPrimary =>
      call! r := call (EvGetKeyspaceDurability (Tablet.Keyspace tablet))
                      (GetKeyspaceDurability (Tablet.Keyspace tablet)) in
      match r with
      | Err err => ret (Some err)
      | Ok durabilityName =>
          call! r := call (EvGetDurabilityPolicy durabilityName)
                          (GetDurabilityPolicy durabilityName) in
          match r with
          | Err err => ret (Some err)
          | Ok durability =>
              call! isSemiSync :=
                call (EvIsReplicaSemiSync (TabletInfo.Tablet shardPrimary) tablet)
                     (IsReplicaSemiSync durability (TabletInfo.Tablet shardPrimary)
                        tablet) in
              call (EvSetReplicationSource tablet
                      (Tablet.Alias (TabletInfo.Tablet shardPrimary)) isSemiSync)
                   (tmclient.SetReplicationSource tablet
                      (Tablet.Alias (TabletInfo.Tablet shardPrimary))
                      0 "" false isSemiSync 0)
          end
      end
  end.

End SetReplicationSource.

(** ** The bounded task group (go/vt/concurrency) *)

Module concurrency.

(** The message a goroutine sends on the error channel. *)
Record Error : Type := {
  Err : option error;
  MustWaitFor : bool
}.

Record ErrorGroup : Type := {
  NumGoroutines : Z;
  NumRequiredSuccesses : Z;
  NumAllowedErrors : Z;
  NumErrorsToWaitFor : Z
}.

(** The ordered error collector; [Errors] is its exported field. *)
Record AllErrorRecorder : Type := { Errors : list error }.

(** Modelled from the spec: [AllErrorRecorder.Error] is declared in
    go/vt/concurrency, outside this file.  Section 4.1 keeps the "first
    error retrievable distinctly for reporting", and section 4.3 step 5
    reports "the first recorded error": [Error] is that first error, nil
    when nothing was recorded. *)
Definition AllErrorRecorder_Error (rec : AllErrorRecorder) : option error :=
  head (Errors rec).

(** What [Wait] has observed so far. *)
Record waitState : Type := {
  successes : Z;
  errors : Z;
  responses : Z;
  outstandingMustWaitFor : Z;
  recorder : AllErrorRecorder
}.

Definition waitStart (eg : ErrorGroup) : waitState :=
  {| successes := 0; errors := 0; responses := 0;
     outstandingMustWaitFor := NumErrorsToWaitFor eg;
     recorder := {| Errors := [] |} |}.

(** Modelled from the spec: one outcome arrives on the result channel; it
    is counted as a success or as an error, every error is appended to the
    collector, and a flagged task that reports is no longer outstanding
    (section 4.1). *)
Definition observe (st : waitState) (msg : Error) : waitState :=
  {| successes := match Err msg with None => successes st + 1 | Some _ => successes st end;
     errors := match Err msg with None => errors st | Some _ => errors st + 1 end;
     responses := responses st + 1;
     outstandingMustWaitFor :=
       if MustWaitFor msg then outstandingMustWaitFor st - 1
       else outstandingMustWaitFor st;
     recorder :=
       match Err msg with
       | None => recorder st
       | Some e => {| Errors := Errors (recorder st) ++ [e] |}
       end |}.

(** Modelled from the spec: the counting condition of section 4.1.  [Wait]
    returns once every flagged task has reported and either the required
    successes were observed, or the errors exceed the allowed number, or
    all [NumGoroutines] tasks have reported ("after the task group
    converges", section 4.3). *)
Definition converged (eg : ErrorGroup) (st : waitState) : bool :=
  (outstandingMustWaitFor st <=? 0)
  && ((NumRequiredSuccesses eg <=? successes st)
      || (NumAllowedErrors eg <? errors st)
      || (NumGoroutines eg <=? responses st)).

(** Modelled from the spec: [ErrorGroup.Wait] is declared in
    go/vt/concurrency, outside this file.  [chan] lists the messages in the
    order in which the channel delivers them; [Wait] returns as soon as the
    counting condition holds and is blocked ([None]) when the channel
    delivers nothing more before that. *)
Fixpoint Wait_loop (eg : ErrorGroup) (st : waitState) (chan : list Error)
    : option waitState :=
  if converged eg st then Some st
  else match chan with
       | [] => None
       | msg :: chan' => Wait_loop eg (observe st msg) chan'
       end.

(** Modelled from the spec: [Wait] starts with nothing observed and with
    [NumErrorsToWaitFor] flagged tasks outstanding.  The error recorder it
    returns is the [recorder] of the final state; the counters are kept for
    the statements below. *)
Definition Wait (eg : ErrorGroup) (chan : list Error) : option waitState :=
  Wait_loop eg (waitStart eg) chan.

End concurrency.

(** ** stopReplicationAndBuildStatusMaps *)

(** replicationSnapshot stores the status maps and the tablets that were
    reachable when trying to stopReplicationAndBuildStatusMaps. *)
Record replicationSnapshot : Type := {
  statusMap : gmap string StopReplicationStatus.t;
  primaryStatusMap : gmap string PrimaryStatus.t;
  reachableTablets : list Tablet.t;
  tabletsBackupState : gmap string bool
}.

(** The value of [res] at lines 185-190. *)
Definition emptySnapshot : replicationSnapshot :=
  {| statusMap := ∅; primaryStatusMap := ∅; reachableTablets := [];
     tabletsBackupState := ∅ |}.

Definition msg_failed_demote : string :=
  "replica %v thinks it's primary but we failed to demote it: %v".
Definition msg_status_error : string :=
  "error when getting replication status for alias %v: %v".
Definition msg_insufficient : string :=
  "could not reach sufficient tablets to guarantee safety: %v".

(** What the loop at lines 260-273 has produced: [allTablets], the counter
    [numErrorsToWaitFor], and the goroutines it started, by alias, each with
    the arguments of its [fillStatus] call. *)
Record launched : Type := {
  allTablets : list Tablet.t;
  numErrorsToWaitFor : Z;
  goroutines : gmap string (TabletInfo.t * bool)
}.

(** One execution of the concurrent part: [range260] is the visit order of
    the loop over [tabletMap]; [updated] lists the goroutines that have run
    their [fillStatus] body when the function returns, in the order in which
    they took the mutex; [received] lists the goroutines in the order in
    which the channel delivers their messages to [Wait]. *)
Record execution : Type := {
  range260 : list (string * TabletInfo.t);
  updated : list string;
  received : list string
}.

(** What the caller gets back, with the log of collaborator calls. *)
Record outcome : Type := {
  snapshot : option replicationSnapshot;
  returnedError : option error;
  calls : list event
}.

Section StopReplication.
Context {tmc : tmclient.TabletManagerClient} {ts : Topology}
        {dp : DurabilityPolicies} {se : SQLErrors}.

(** Line 209-210: [isSQLErr && sqlErr != nil && sqlErr.Number() == ERNotReplica]. *)
Definition isNotReplicaError (err : error) : bool :=
  match NewSQLErrorFromError err with
  | SQLErrorPtr (Some sqlErr) => sqlerror.Number sqlErr =? ERNotReplica
  | _ => false
  end.

(** The closure [fillStatus], lines 196-247.  It updates the shared
    snapshot [res] and, through its deferred function, sends one message on
    [errChan]; both are returned. *)
Definition fillStatus (alias : string) (tabletInfo : TabletInfo.t)
    (mustWaitForTablet : bool) (res : replicationSnapshot)
    : Logged (replicationSnapshot * concurrency.Error) :=
  let send (res : replicationSnapshot) (err : option error) :=
    ret (res, {| concurrency.Err := err;
                 concurrency.MustWaitFor := mustWaitForTablet |}) in
  call! r := call (EvStopReplicationAndGetStatus (TabletInfo.Tablet tabletInfo)
                     StopReplicationMode_IOTHREADONLY)
                  (tmclient.StopReplicationAndGetStatus
                     (TabletInfo.Tablet tabletInfo)
                     StopReplicationMode_IOTHREADONLY) in
  match r with
  | Err err =>
      if isNotReplicaError err then
        call! r := call (EvDemotePrimary (TabletInfo.Tablet tabletInfo))
                        (tmclient.DemotePrimary (TabletInfo.Tablet tabletInfo)) in
        match r with
        | Err err =>
            send res (Some (Wrapf err msg_failed_demote
                              [ArgString alias; ArgError err]))
        | Ok primaryStatus =>
            send {| statusMap := statusMap res;
                    primaryStatusMap := <[alias := primaryStatus]> (primaryStatusMap res);
                    reachableTablets :=
                      reachableTablets res ++ [TabletInfo.Tablet tabletInfo];
                    tabletsBackupState := tabletsBackupState res |}
                 None
        end
      else
        send res (Some (Wrapf err msg_status_error
                          [ArgString alias; ArgError err]))
  | Ok stopReplicationStatus =>
      let isTakingBackup :=
        match StopReplicationStatus.After stopReplicationStatus with
        | Some after => Status.BackupRunning after
        | None =>
            match StopReplicationStatus.Before stopReplicationStatus with
            | Some before => Status.BackupRunning before
            | None => false
            end
        end in
      send {| statusMap := <[alias := stopReplicationStatus]> (statusMap res);
              primaryStatusMap := primaryStatusMap res;
              reachableTablets :=
                reachableTablets res ++ [TabletInfo.Tablet tabletInfo];
              tabletsBackupState :=
                <[alias := isTakingBackup]> (tabletsBackupState res) |}
           None
  end.

(** Lines 255-259. *)
Definition tabletAliasToWaitFor (tabletToWaitFor : option TabletAlias.t) : string :=
  match tabletToWaitFor with
  | Some a => TabletAliasString a
  | None => ""
  end.

(** One iteration of the loop at lines 260-273. *)
Definition launchStep (ignoredTablets : gset string) (aliasToWaitFor : string)
    (st : launched) (entry : string * TabletInfo.t) : launched :=
  let '(alias, tabletInfo) := entry in
  let allTablets' := allTablets st ++ [TabletInfo.Tablet tabletInfo] in
  if bool_decide (alias ∈ ignoredTablets)
  then {| allTablets := allTablets';
          numErrorsToWaitFor := numErrorsToWaitFor st;
          goroutines := goroutines st |}
  else
    let mustWaitFor := bool_decide (aliasToWaitFor = alias) in
    {| allTablets := allTablets';
       numErrorsToWaitFor :=
         if mustWaitFor then numErrorsToWaitFor st + 1 else numErrorsToWaitFor st;
       goroutines := <[alias := (tabletInfo, mustWaitFor)]> (goroutines st) |}.

Definition launchGoroutines (ignoredTablets : gset string) (aliasToWaitFor : string)
    (range : list (string * TabletInfo.t)) : launched :=
  foldl (launchStep ignoredTablets aliasToWaitFor)
        {| allTablets := []; numErrorsToWaitFor := 0; goroutines := ∅ |}
        range.

(** Lines 275-290.  [len] and [Len] are far below the range of Go's [int],
    so the arithmetic is that of [Z]. *)
Definition buildErrorGroup (tabletMap : gmap string TabletInfo.t)
    (ignoredTablets : gset string) (waitForAllTablets : bool)
    (numErrorsToWaitFor : Z) : concurrency.ErrorGroup :=
  let numGoRoutines := Z.of_nat (size tabletMap) - Z.of_nat (size ignoredTablets) in
  let requiredSuccesses :=
    if waitForAllTablets then numGoRoutines else numGoRoutines - 1 in
  {| concurrency.NumGoroutines := numGoRoutines;
     concurrency.NumRequiredSuccesses := requiredSuccesses;
     concurrency.NumAllowedErrors := Z.of_nat (size tabletMap);
     concurrency.NumErrorsToWaitFor := numErrorsToWaitFor |}.

(** The message goroutine [alias] sends; it does not depend on the
    snapshot the goroutine finds. *)
Definition messageOf (gs : gmap string (TabletInfo.t * bool)) (alias : string)
    : option concurrency.Error :=
  match gs !! alias with
  | Some (tabletInfo, mustWaitFor) =>
      Some (fillStatus alias tabletInfo mustWaitFor emptySnapshot).1.2
  | None => None
  end.

(** The messages delivered by [errChan], in order. *)
Definition errChan (gs : gmap string (TabletInfo.t * bool)) (order : list string)
    : list concurrency.Error :=
  omap (messageOf gs) order.

(** The goroutines of [order] run their [fillStatus] body one after the
    other on the shared snapshot. *)
Fixpoint runGoroutines (gs : gmap string (TabletInfo.t * bool))
    (order : list string) (res : replicationSnapshot) : Logged replicationSnapshot :=
  match order with
  | [] => ret res
  | alias :: order' =>
      match gs !! alias with
      | Some (tabletInfo, mustWaitFor) =>
          call! r := fillStatus alias tabletInfo mustWaitFor res in
          runGoroutines gs order' r.1
      | None => runGoroutines gs order' res
      end
  end.

(** The goroutines started by the call, and what [errgroup.Wait] returns
    at line 292 ([None]: it is still blocked on the channel). *)
Definition startedGoroutines (ignoredTablets : gset string)
    (tabletToWaitFor : option TabletAlias.t) (x : execution) : launched :=
  launchGoroutines ignoredTablets (tabletAliasToWaitFor tabletToWaitFor) (range260 x).

Definition waitOutcome (tabletMap : gmap string TabletInfo.t)
    (ignoredTablets : gset string) (tabletToWaitFor : option TabletAlias.t)
    (waitForAllTablets : bool) (x : execution) : option concurrency.waitState :=
  let l := startedGoroutines ignoredTablets tabletToWaitFor x in
  concurrency.Wait
    (buildErrorGroup tabletMap ignoredTablets waitForAllTablets (numErrorsToWaitFor l))
    (errChan (goroutines l) (received x)).

(** The snapshot [res] when the call returns, with the log of the RPCs
    issued by the goroutines that have run. *)
Definition builtSnapshot (ignoredTablets : gset string)
    (tabletToWaitFor : option TabletAlias.t) (x : execution)
    : Logged replicationSnapshot :=
  runGoroutines (goroutines (startedGoroutines ignoredTablets tabletToWaitFor x))
    (updated x) emptySnapshot.

(** The function itself. *)
Definition stopReplicationAndBuildStatusMaps
    (tabletMap : gmap string TabletInfo.t)
    (ignoredTablets : gset string)
    (tabletToWaitFor : option TabletAlias.t)
    (durability : Durabler)
    (waitForAllTablets : bool)
    (x : execution) : option outcome :=
  let l := startedGoroutines ignoredTablets tabletToWaitFor x in
  match waitOutcome tabletMap ignoredTablets tabletToWaitFor waitForAllTablets x with
  | None => None
  | Some w =>
      let errRecorder := concurrency.recorder w in
      let '(res, log) := builtSnapshot ignoredTablets tabletToWaitFor x in
      if (length (concurrency.Errors errRecorder) <=? 1)%nat
      then Some {| snapshot := Some res; returnedError := None; calls := log |}
      else
        let revokeSuccessful :=
          haveRevoked durability (reachableTablets res) (allTablets l) in
        let log := log ++ [EvHaveRevoked (reachableTablets res) (allTablets l)] in
        if negb revokeSuccessful
        then Some {| snapshot := None;
                     returnedError :=
                       match concurrency.AllErrorRecorder_Error errRecorder with
                       | Some e => Some (Wrapf e msg_insufficient [ArgError e])
                       | None => None
                       end;
                     calls := log |}
        else Some {| snapshot := Some res; returnedError := None; calls := log |}
  end.

(** [x] is an execution of a call on [tabletMap]: the loop visits the
    entries of [tabletMap]; only started goroutines run or send, each at most
    once; a message that [Wait] received was sent by a goroutine that had
    updated the snapshot before. *)
Definition execution_of
    (tabletMap : gmap string TabletInfo.t)
    (ignoredTablets : gset string)
    (tabletToWaitFor : option TabletAlias.t)
    (waitForAllTablets : bool)
    (x : execution) : Prop :=
  let l := startedGoroutines ignoredTablets tabletToWaitFor x in
  range260 x ≡ₚ map_to_list tabletMap
  ∧ NoDup (updated x)
  ∧ (∀ alias, alias ∈ updated x → is_Some (goroutines l !! alias))
  ∧ NoDup (received x)
  ∧ (∀ alias, alias ∈ received x → is_Some (goroutines l !! alias))
  ∧ (∀ w, waitOutcome tabletMap ignoredTablets tabletToWaitFor waitForAllTablets x
          = Some w →
          ∀ alias,
            alias ∈ take (Z.to_nat (concurrency.responses w)) (received x) →
            alias ∈ updated x).

(** Every started goroutine eventually offers its message to [Wait]. *)
Definition all_report (ignoredTablets : gset string)
    (tabletToWaitFor : option TabletAlias.t) (x : execution) : Prop :=
  let l := startedGoroutines ignoredTablets tabletToWaitFor x in
  ∀ alias, is_Some (goroutines l !! alias) → alias ∈ received x.

(** A decision procedure for the conditions of [execution_of] other than
    the one on the visit order. *)
Definition check_execution
    (tabletMap : gmap string TabletInfo.t)
    (ignoredTablets : gset string)
    (tabletToWaitFor : option TabletAlias.t)
    (waitForAllTablets : bool)
    (x : execution) : bool :=
  let l := startedGoroutines ignoredTablets tabletToWaitFor x in
  bool_decide (NoDup (updated x))
  && forallb (λ alias, bool_decide (is_Some (goroutines l !! alias))) (updated x)
  && bool_decide (NoDup (received x))
  && forallb (λ alias, bool_decide (is_Some (goroutines l !! alias))) (received x)
  && match waitOutcome tabletMap ignoredTablets tabletToWaitFor waitForAllTablets x with
     | Some w =>
         forallb (λ alias, bool_decide (alias ∈ updated x))
                 (take (Z.to_nat (concurrency.responses w)) (received x))
     | None => true
     end.

(** The snapshot invariant, relative to the goroutines [gs] and to the list
    [ran] of the goroutines that have run so far: no alias is a key of both
    maps, and every key is the alias of a goroutine that has run and whose
    tablet is among the reachable ones. *)
Definition snapshotInv (gs : gmap string (TabletInfo.t * bool))
    (ran : list string) (res : replicationSnapshot) : Prop :=
  (∀ k, is_Some (statusMap res !! k) → is_Some (primaryStatusMap res !! k) → False)
  ∧ (∀ k, is_Some (statusMap res !! k) ∨ is_Some (primaryStatusMap res !! k) →
          k ∈ ran
          ∧ ∃ tabletInfo mustWaitFor,
              gs !! k = Some (tabletInfo, mustWaitFor)
              ∧ TabletInfo.Tablet tabletInfo ∈ reachableTablets res).

(** The calls a goroutine makes. *)
Definition isTabletCall (ev : event) : Prop :=
  match ev with
  | EvStopReplicationAndGetStatus _ _ | EvDemotePrimary _ => True
  | _ => False
  end.

End StopReplication.

(** ** A sample cluster

    Concrete collaborators on which the statements below are exercised: a
    position model with the two representations of section 3, five tablets
    with fixed RPC outcomes, a topology without shard primary and a policy
    whose fencing check needs two reachable tablets. *)

Module Sample.

Inductive GTIDSet : Type :=
| Mysql56GTIDSet (set : string)
| FilePosGTID (pos : string).

(** [None] is the zero position. *)
Definition position : Type := option GTIDSet.

Definition decode (s : string) : result position :=
  if String.eqb s "" then Ok None
  else if String.prefix "MySQL56/" s
  then Ok (Some (Mysql56GTIDSet (String.substring 8 (String.length s - 8) s)))
  else if String.prefix "FilePos/" s
  then Ok (Some (FilePosGTID (String.substring 8 (String.length s - 8) s)))
  else Err (Opaque_error "parse error").

Definition decode_or_zero (s : string) : position :=
  match decode s with
  | Ok p => p
  | Err _ => None
  end.

#[export] Instance replication : Replication := {|
  Position := position;
  IsMysql56GTIDSet p :=
    match p with Some (Mysql56GTIDSet _) => true | _ => false end;
  IsZero p := match p with None => true | Some _ => false end;
  DecodePosition := decode;
  ProtoToReplicationStatus st :=
    match st with
    | Some st =>
        {| ReplicationStatus.Position := decode_or_zero (Status.Position st);
           ReplicationStatus.RelayLogPosition :=
             decode_or_zero (Status.RelayLogPosition st) |}
    | None =>
        {| ReplicationStatus.Position := None;
           ReplicationStatus.RelayLogPosition := None |}
    end
|}.

Definition tablet (uid : Z) : Tablet.t :=
  {| Tablet.Alias := Some {| TabletAlias.Cell := "zone1"; TabletAlias.Uid := uid |};
     Tablet.Keyspace := "commerce";
     Tablet.Shard := "0" |}.

Definition info (uid : Z) : TabletInfo.t := {| TabletInfo.Tablet := tablet uid |}.

Definition uidOf (t : Tablet.t) : Z :=
  match Tablet.Alias t with
  | Some a => TabletAlias.Uid a
  | None => 0
  end.

Definition status (pos : string) (backup : bool) : Status.t :=
  {| Status.Position := pos; Status.RelayLogPosition := pos;
     Status.BackupRunning := backup |}.

Definition notReplica : error :=
  SQLErrorPtr (Some {| sqlerror.Number := 1200 |}).

(** Tablets 100 and 101 stop replication; 102 and 104 answer "not a
    replica", and only 102 can be demoted; every other tablet is
    unreachable. *)
#[export] Instance tmc : tmclient.TabletManagerClient := {|
  tmclient.StopReplicationAndGetStatus t _ :=
    if uidOf t =? 100
    then Ok {| StopReplicationStatus.Before := Some (status "MySQL56/src1:1-4" false);
               StopReplicationStatus.After := Some (status "MySQL56/src1:1-5" false) |}
    else if uidOf t =? 101
    then Ok {| StopReplicationStatus.Before := Some (status "MySQL56/src1:1-9" true);
               StopReplicationStatus.After := None |}
    else if (uidOf t =? 102) || (uidOf t =? 104) then Err notReplica
    else Err (Opaque_error "context deadline exceeded");
  tmclient.DemotePrimary t :=
    if uidOf t =? 102
    then Ok {| PrimaryStatus.Position := "MySQL56/src1:1-10";
               PrimaryStatus.FilePosition := "" |}
    else Err (Opaque_error "demote failed");
  tmclient.SetReplicationSource _ _ _ _ _ _ _ := None
|}.

Fixpoint zeros (n : nat) : string :=
  match n with
  | O => ""
  | S n => "0" +:+ zeros n
  end.

Definition aliasString (a : TabletAlias.t) : string :=
  let digits := pretty (TabletAlias.Uid a) in
  TabletAlias.Cell a +:+ "-" +:+ zeros (10 - String.length digits) +:+ digits.

#[export] Instance topology : Topology := {|
  GetShardPrimaryForTablet _ := Err (Opaque_error "node doesn't exist");
  GetKeyspaceDurability _ := Ok "semi_sync";
  TabletAliasString := aliasString
|}.

#[export] Instance policies : DurabilityPolicies := {|
  Durabler := unit;
  GetDurabilityPolicy _ := Ok tt;
  IsReplicaSemiSync _ _ _ := true;
  haveRevoked _ reachable _ := (2 <=? length reachable)%nat
|}.

Definition twoReachable : @Durabler policies := tt.

(** The error [fillStatus] reports for an unreachable tablet. *)
Definition unreachableError (uid : Z) : error :=
  Wrapf (Opaque_error "context deadline exceeded")
    "error when getting replication status for alias %v: %v"
    [ArgString (aliasString {| TabletAlias.Cell := "zone1"; TabletAlias.Uid := uid |});
     ArgError (Opaque_error "context deadline exceeded")].

#[export] Instance sqlerrors : SQLErrors := {|
  NewSQLErrorFromError e := e;
  ERNotReplica := 1200
|}.

Definition tabletMap (uids : list Z) : gmap string TabletInfo.t :=
  list_to_map
    (map (λ uid, (aliasString {| TabletAlias.Cell := "zone1"; TabletAlias.Uid := uid |},
                  info uid)) uids).

Definition aliasOf (uid : Z) : string :=
  aliasString {| TabletAlias.Cell := "zone1"; TabletAlias.Uid := uid |}.

(** The execution in which the goroutines of [uids] finish, and are
    received, in the order of the list. *)
Definition inOrder (m : gmap string TabletInfo.t) (uids : list Z) : execution :=
  {| range260 := map_to_list m;
     updated := map aliasOf uids;
     received := map aliasOf uids |}.

Definition stopped (relay : string) : StopReplicationStatus.t :=
  {| StopReplicationStatus.Before := None;
     StopReplicationStatus.After :=
       Some {| Status.Position := "FilePos/binlog.000001:4";
               Status.RelayLogPosition := relay;
               Status.BackupRunning := false |} |}.

(** Three status maps: GTID-based, GTID-based with one offset-based node
    and one node without relay-log position, and offset-based with one node
    without relay-log position. *)
Definition gtidStatusMap : gmap string StopReplicationStatus.t :=
  {[ aliasOf 100 := stopped "MySQL56/src1:1-5";
     aliasOf 101 := stopped "MySQL56/src1:1-9" ]}.

Definition mixedStatusMap : gmap string StopReplicationStatus.t :=
  {[ aliasOf 100 := stopped "MySQL56/src1:1-5";
     aliasOf 101 := stopped "FilePos/relay.000002:120";
     aliasOf 103 := stopped "" ]}.

Definition offsetStatusMap : gmap string StopReplicationStatus.t :=
  {[ aliasOf 100 := stopped "FilePos/relay.000002:120";
     aliasOf 101 := stopped "" ]}.

Definition primaries : gmap string PrimaryStatus.t :=
  {[ aliasOf 102 := {| PrimaryStatus.Position := "MySQL56/src1:1-10";
                       PrimaryStatus.FilePosition := "" |} ]}.

(** The visit orders in which every loop follows [map_to_list] backwards. *)
Definition reversedRanges (sm : gmap string StopReplicationStatus.t)
    (pm : gmap string PrimaryStatus.t) : rangeOrders :=
  {| range54 := reverse (map_to_list sm);
     range67 := reverse (map_to_list (buildReplicationStatusMap (reverse (map_to_list sm))));
     range91 := reverse (map_to_list (buildReplicationStatusMap (reverse (map_to_list sm))));
     range100 := reverse (map_to_list pm) |}.

(** The ranking of [gtidStatusMap] with [primaries]. *)
Definition rankedPositions : gmap string position :=
  {[ aliasOf 100 := Some (Mysql56GTIDSet "src1:1-5");
     aliasOf 101 := Some (Mysql56GTIDSet "src1:1-9");
     aliasOf 102 := Some (Mysql56GTIDSet "src1:1-10") ]}.

(** A topology in which tablet 100 is the shard primary and only the
    keyspace "commerce" has a durability policy. *)
Definition topologyWithPrimary : Topology := {|
  GetShardPrimaryForTablet _ := Ok (info 100);
  GetKeyspaceDurability ks :=
    if String.eqb ks "commerce" then Ok "semi_sync"
    else Err (Opaque_error "node doesn't exist");
  TabletAliasString := aliasString
|}.

Definition orphanTablet : Tablet.t :=
  {| Tablet.Alias := Some {| TabletAlias.Cell := "zone1"; TabletAlias.Uid := 200 |};
     Tablet.Keyspace := "orphan";
     Tablet.Shard := "0" |}.

(** Three tablets, of which 102 thinks it is primary, polled in the order
    102, 100, 101; and the outcome of that call. *)
Definition cluster3 : gmap string TabletInfo.t := tabletMap [100; 101; 102].
Definition run3 : execution := inOrder cluster3 [102; 100; 101].
Definition out3 : outcome :=
  {| snapshot := Some (builtSnapshot ∅ None run3).1;
     returnedError := None;
     calls := (builtSnapshot ∅ None run3).2 |}.

(** Three tablets, of which 103 and 105 are unreachable, polled in the
    order 103, 105, 100; what [Wait] returns and the outcome of the call. *)
Definition cluster1 : gmap string TabletInfo.t := tabletMap [100; 103; 105].
Definition run1 : execution := inOrder cluster1 [103; 105; 100].
Definition wait1 : concurrency.waitState :=
  {| concurrency.successes := 1; concurrency.errors := 2;
     concurrency.responses := 3;
     concurrency.outstandingMustWaitFor := 0;
     concurrency.recorder :=
       {| concurrency.Errors := [unreachableError 103; unreachableError 105] |} |}.
Definition out1 : outcome :=
  {| snapshot := None;
     returnedError :=
       Some (Wrapf (unreachableError 103)
               "could not reach sufficient tablets to guarantee safety: %v"
               [ArgError (unreachableError 103)]);
     calls :=
       (builtSnapshot ∅ None run1).2
       ++ [EvHaveRevoked (reachableTablets (builtSnapshot ∅ None run1).1)
             (allTablets (startedGoroutines ∅ None run1))] |}.

(** What tablet 100 answers to the stop-replication call, and tablet 102
    to the demotion. *)
Definition answer100 : StopReplicationStatus.t :=
  {| StopReplicationStatus.Before := Some (status "MySQL56/src1:1-4" false);
     StopReplicationStatus.After := Some (status "MySQL56/src1:1-5" false) |}.
Definition answer102 : PrimaryStatus.t :=
  {| PrimaryStatus.Position := "MySQL56/src1:1-10";
     PrimaryStatus.FilePosition := "" |}.

(** A primary status whose executed position does not decode. *)
Definition badPrimaries : gmap string PrimaryStatus.t :=
  {[ aliasOf 102 := {| PrimaryStatus.Position := "garbage";
                       PrimaryStatus.FilePosition := "" |} ]}.

(** The visit orders in which every loop follows [map_to_list]. *)
Definition canonicalRanges (sm : gmap string StopReplicationStatus.t)
    (pm : gmap string PrimaryStatus.t) : rangeOrders :=
  {| range54 := map_to_list sm;
     range67 := map_to_list (buildReplicationStatusMap (map_to_list sm));
     range91 := map_to_list (buildReplicationStatusMap (map_to_list sm));
     range100 := map_to_list pm |}.

End Sample.

(** The threshold as section 4.3 step 3 words it: [numCandidates] is the
    number of non-ignored nodes of the tablet map. *)
Definition numCandidates (tabletMap : gmap string TabletInfo.t)
    (ignoredTablets : gset string) : Z :=
  Z.of_nat (size (filter (λ kv, kv.1 ∉ ignoredTablets) tabletMap)).

Definition specRequiredSuccesses (tabletMap : gmap string TabletInfo.t)
    (ignoredTablets : gset string) (waitForAllTablets : bool) : Z :=
  if waitForAllTablets then numCandidates tabletMap ignoredTablets
  else numCandidates tabletMap ignoredTablets - 1.

(** The messages of a list that come from flagged ("must wait for") tasks. *)
Definition flagged (l : list concurrency.Error) : list concurrency.Error :=
  filter (λ m, concurrency.MustWaitFor m = true) l.

(** ** What the RPCs of a goroutine answer

    The answers on which [fillStatus] branches, for the goroutine started
    under [alias] (if any). *)

Section Answers.
Context {tmc : tmclient.TabletManagerClient} {se : SQLErrors}.

(** The status returned by a successful stop-replication call. *)
Definition stoppedStatus (gs : gmap string (TabletInfo.t * bool)) (alias : string)
    : option StopReplicationStatus.t :=
  match gs !! alias with
  | Some (tabletInfo, _) =>
      match tmclient.StopReplicationAndGetStatus (TabletInfo.Tablet tabletInfo)
              StopReplicationMode_IOTHREADONLY with
      | Ok stopReplicationStatus => Some stopReplicationStatus
      | Err _ => None
      end
  | None => None
  end.

(** The primary status returned by a successful demotion, which is only
    attempted after a "not a replica" answer to the stop-replication call. *)
Definition demotedStatus (gs : gmap string (TabletInfo.t * bool)) (alias : string)
    : option PrimaryStatus.t :=
  match gs !! alias with
  | Some (tabletInfo, _) =>
      match tmclient.StopReplicationAndGetStatus (TabletInfo.Tablet tabletInfo)
              StopReplicationMode_IOTHREADONLY with
      | Ok _ => None
      | Err err =>
          if isNotReplicaError err then
            match tmclient.DemotePrimary (TabletInfo.Tablet tabletInfo) with
            | Ok primaryStatus => Some primaryStatus
            | Err _ => None
            end
          else None
      end
  | None => None
  end.

(** Lines 231-239: the backup flag of a stop-replication status, taken
    from [After] when present and else from [Before]. *)
Definition isTakingBackup (stopReplicationStatus : StopReplicationStatus.t) : bool :=
  match StopReplicationStatus.After stopReplicationStatus with
  | Some after => Status.BackupRunning after
  | None =>
      match StopReplicationStatus.Before stopReplicationStatus with
      | Some before => Status.BackupRunning before
      | None => false
      end
  end.

End Answers.

(** * Properties of FindPositionsOfAllCandidates *)

Section FindPositionsFacts.
Context {R : Replication}.

(** A loop that stores [g v] under every visited key [k] of a map. *)
Lemma foldl_insert_lookup {V W : Type} (g : V → W)
    (l : list (string * V)) (m0 : gmap string W) (k : string) :
  NoDup l.*1 →
  foldl (λ m '(a, v), <[a := g v]> m) m0 l !! k
  = match (list_to_map l : gmap string V) !! k with
    | Some v => Some (g v)
    | None => m0 !! k
    end.
Proof.
  revert m0. induction l as [|[a v] l IH]; intros m0 Hnd; simpl.
  - by rewrite lookup_empty.
  - apply NoDup_cons in Hnd as [Ha Hnd]. rewrite IH by done.
    pose proof (not_elem_of_list_to_map_1 (M := gmap string) l a Ha) as Hn.
    destruct (decide (a = k)) as [->|Hne].
    + by rewrite Hn, !lookup_insert_eq.
    + by rewrite !lookup_insert_ne.
Qed.

Lemma range_NoDup {V : Type} (m : gmap string V) (l : list (string * V)) :
  l ≡ₚ map_to_list m → NoDup l.*1.
Proof. intros ->. apply NoDup_fst_map_to_list. Qed.

Lemma range_to_map {V : Type} (m : gmap string V) (l : list (string * V)) :
  l ≡ₚ map_to_list m → list_to_map l = m.
Proof.
  intros Hp. rewrite <- (list_to_map_to_list m).
  apply list_to_map_proper; [by eapply range_NoDup | done].
Qed.

Lemma range_elem_of {V : Type} (m : gmap string V) (l : list (string * V)) k v :
  l ≡ₚ map_to_list m → (k, v) ∈ l ↔ m !! k = Some v.
Proof. intros ->. apply elem_of_map_to_list. Qed.

Lemma buildReplicationStatusMap_fmap statusMap range :
  range ≡ₚ map_to_list statusMap →
  buildReplicationStatusMap range
  = (λ statuspb, ProtoToReplicationStatus (StopReplicationStatus.After statuspb))
      <$> statusMap.
Proof.
  intros Hp. apply map_eq. intros k. unfold buildReplicationStatusMap.
  rewrite (foldl_insert_lookup
             (λ statuspb, ProtoToReplicationStatus (StopReplicationStatus.After statuspb)))
    by by eapply range_NoDup.
  rewrite (range_to_map _ _ Hp), lookup_fmap, lookup_empty.
  by destruct (statusMap !! k).
Qed.

Lemma storePositions_lookup gtid range positionMap k :
  NoDup range.*1 →
  storePositions gtid range positionMap !! k
  = match (list_to_map range : gmap string _) !! k with
    | Some status =>
        Some (if gtid then ReplicationStatus.RelayLogPosition status
              else ReplicationStatus.Position status)
    | None => positionMap !! k
    end.
Proof.
  intros Hnd. unfold storePositions.
  rewrite <- (foldl_insert_lookup
                (λ status, if gtid then ReplicationStatus.RelayLogPosition status
                           else ReplicationStatus.Position status)) by done.
  f_equal. clear Hnd. revert positionMap.
  induction range as [|[a v] l IH]; intros m; simpl; [done|].
  rewrite IH. by destruct gtid.
Qed.

(** What the scanning loop computes, whatever the visit order. *)
Lemma scanRelayLogs_from s range :
  isGTIDBased (foldl scanStep s range)
  = isGTIDBased s
    || existsb (λ e, IsMysql56GTIDSet (ReplicationStatus.RelayLogPosition e.2)) range
  ∧ isNonGTIDBased (foldl scanStep s range)
  = isNonGTIDBased s
    || existsb (λ e, negb (IsMysql56GTIDSet (ReplicationStatus.RelayLogPosition e.2))) range
  ∧ FirstErrorRecorder.HasErrors (emptyRelayPosErrorRecorder (foldl scanStep s range))
  = FirstErrorRecorder.HasErrors (emptyRelayPosErrorRecorder s)
    || existsb (λ e, IsZero (ReplicationStatus.RelayLogPosition e.2)) range.
Proof.
  revert s. induction range as [|[a st] l IH]; intros s; cbn [foldl existsb].
  - by rewrite !orb_false_r.
  - destruct (IH (scanStep s (a, st))) as (-> & -> & ->). clear IH.
    unfold scanStep. simpl.
    destruct (IsMysql56GTIDSet _), (IsZero _); simpl;
      destruct (isGTIDBased s), (isNonGTIDBased s),
        (emptyRelayPosErrorRecorder s); simpl; done.
Qed.

(** The recorded error names a visited node whose relay position is zero. *)
Lemma scanRelayLogs_error s range e :
  emptyRelayPosErrorRecorder (foldl scanStep s range) = Some e →
  emptyRelayPosErrorRecorder s = Some e
  ∨ ∃ alias status, (alias, status) ∈ range
      ∧ IsZero (ReplicationStatus.RelayLogPosition status) = true
      ∧ e = Errorf vtrpc.Code_UNAVAILABLE msg_no_relay_log_position [ArgString alias].
Proof.
  revert s. induction range as [|[a st] l IH]; intros s; cbn [foldl]; [by left|].
  intros He. destruct (IH _ He) as [Hs|(alias & status & Hin & Hz & ->)].
  - unfold scanStep in Hs.
    destruct (IsZero (ReplicationStatus.RelayLogPosition st)) eqn:Hz.
    + destruct (IsMysql56GTIDSet _); simpl in Hs;
        (destruct (emptyRelayPosErrorRecorder s) as [e0|] eqn:Hrec; simpl in Hs;
         [left; congruence
         |right; exists a, st; split_and!; [left|done|congruence]]).
    + left. by destruct (IsMysql56GTIDSet _).
  - right. exists alias, status. split_and!; [by right|done|done].
Qed.

Lemma existsb_range {V : Type} (m : gmap string V) (l : list (string * V))
    (f : V → bool) :
  l ≡ₚ map_to_list m →
  existsb (λ e, f e.2) l = true ↔ ∃ k v, m !! k = Some v ∧ f v = true.
Proof.
  intros Hp. rewrite existsb_exists. split.
  - intros ([k v] & Hin & Hf). exists k, v. split; [|done].
    apply (range_elem_of _ _ _ _ Hp). by apply list_elem_of_In.
  - intros (k & v & Hl & Hf). exists (k, v). split; [|done].
    apply list_elem_of_In. by apply (range_elem_of _ _ _ _ Hp).
Qed.

End FindPositionsFacts.

Section FindPositionsClaims.
Context {R : Replication}.

Lemma HasErrors_Some (r : FirstErrorRecorder.t) :
  FirstErrorRecorder.HasErrors r = true → ∃ e, r = Some e.
Proof. destruct r as [e|]; [by exists e | done]. Qed.

(** The three facts gathered by the scanning loop, read on [statusMap]. *)
Lemma scanRelayLogs_spec statusMap primaryStatusMap o :
  ranges_of statusMap primaryStatusMap o →
  let s := scanRelayLogs (range67 o) in
  (isGTIDBased s = true ↔
     ∃ alias statuspb, statusMap !! alias = Some statuspb
       ∧ IsMysql56GTIDSet (relayPositionOf statuspb) = true)
  ∧ (isNonGTIDBased s = true ↔
     ∃ alias statuspb, statusMap !! alias = Some statuspb
       ∧ IsMysql56GTIDSet (relayPositionOf statuspb) = false)
  ∧ (FirstErrorRecorder.HasErrors (emptyRelayPosErrorRecorder s) = true ↔
     ∃ alias statuspb, statusMap !! alias = Some statuspb
       ∧ IsZero (relayPositionOf statuspb) = true).
Proof.
  intros (H54 & H67 & _ & _) s.
  rewrite (buildReplicationStatusMap_fmap _ _ H54) in H67.
  destruct (scanRelayLogs_from
              {| isGTIDBased := false; isNonGTIDBased := false;
                 emptyRelayPosErrorRecorder := FirstErrorRecorder.empty |}
              (range67 o)) as (Hg & Hn & He).
  fold (scanRelayLogs (range67 o)) in Hg, Hn, He. fold s in Hg, Hn, He.
  simpl in Hg, Hn, He. rewrite Hg, Hn, He. clear Hg Hn He.
  rewrite (existsb_range _ _
             (λ st, IsMysql56GTIDSet (ReplicationStatus.RelayLogPosition st)) H67).
  rewrite (existsb_range _ _
             (λ st, negb (IsMysql56GTIDSet (ReplicationStatus.RelayLogPosition st))) H67).
  rewrite (existsb_range _ _
             (λ st, IsZero (ReplicationStatus.RelayLogPosition st)) H67).
  split_and!; split.
  all: try (intros (k & v & Hl & Hv); apply lookup_fmap_Some in Hl as (st & <- & Hst);
            exists k, st; split; [done|]; unfold relayPositionOf;
            first [done | by apply negb_true_iff]).
  all: intros (k & st & Hst & Hv); eexists k, _; rewrite lookup_fmap, Hst;
       (split; [reflexivity|]); unfold relayPositionOf in Hv;
       first [done | by apply negb_true_iff].
Qed.

Lemma storePrimaryPositions_Ok range positionMap0 positionMap :
  NoDup range.*1 →
  storePrimaryPositions range positionMap0 = Ok positionMap →
  ∀ alias,
    match (list_to_map range : gmap string _) !! alias with
    | Some primaryStatus =>
        ∃ p, DecodePosition (PrimaryStatus.Position primaryStatus) = Ok p
             ∧ positionMap !! alias = Some p
    | None => positionMap !! alias = positionMap0 !! alias
    end.
Proof.
  revert positionMap0. induction range as [|[a ps] l IH]; intros m0 Hnd Hok alias.
  - simpl in *. rewrite lookup_empty. congruence.
  - apply NoDup_cons in Hnd as [Ha Hnd]. cbn [storePrimaryPositions] in Hok.
    destruct (DecodePosition (PrimaryStatus.Position ps)) as [p|e] eqn:Hd; [|done].
    specialize (IH _ Hnd Hok alias).
    pose proof (not_elem_of_list_to_map_1 (M := gmap string) l a Ha) as Hn.
    cbn [list_to_map foldr uncurry]. simpl.
    destruct (decide (a = alias)) as [->|Hne].
    + rewrite lookup_insert_eq. rewrite Hn in IH.
      exists p. split; [done|]. by rewrite IH, lookup_insert_eq.
    + rewrite lookup_insert_ne by done.
      destruct (list_to_map l !! alias); [done|].
      by rewrite IH, lookup_insert_ne.
Qed.

Lemma storePositions_fmap statusMap primaryStatusMap o gtid :
  ranges_of statusMap primaryStatusMap o →
  storePositions gtid (range91 o) ∅
  = (λ st, if gtid then relayPositionOf st else plainPositionOf st) <$> statusMap.
Proof.
  intros (H54 & _ & H91 & _). apply map_eq. intros k.
  rewrite storePositions_lookup by by eapply range_NoDup.
  rewrite (range_to_map _ _ H91), (buildReplicationStatusMap_fmap _ _ H54).
  rewrite !lookup_fmap, lookup_empty.
  destruct (statusMap !! k); simpl; [|done].
  unfold relayPositionOf, plainPositionOf. by destruct gtid.
Qed.

(** C6. When [FindPositionsOfAllCandidates] succeeds: the returned flag is
    true exactly when some node of [statusMap] has a set-based (MySQL 5.6
    GTID) relay-log position; every node of [primaryStatusMap] is mapped to
    its decoded primary-side executed position, whether or not it also is in
    [statusMap]; every other node of [statusMap] is mapped to its relay-log
    position if the flag is true and to its plain replication position
    otherwise, and nodes of neither map are absent from the result. *)
Theorem FindPositionsOfAllCandidates_result
    statusMap primaryStatusMap o positionMap gtid :
  ranges_of statusMap primaryStatusMap o →
  FindPositionsOfAllCandidates o = Ok (positionMap, gtid) →
  (gtid = true ↔
     ∃ alias statuspb, statusMap !! alias = Some statuspb
       ∧ IsMysql56GTIDSet (relayPositionOf statuspb) = true)
  ∧ (∀ alias primaryStatus,
       primaryStatusMap !! alias = Some primaryStatus →
       ∃ p, DecodePosition (PrimaryStatus.Position primaryStatus) = Ok p
            ∧ positionMap !! alias = Some p)
  ∧ (∀ alias,
       primaryStatusMap !! alias = None →
       positionMap !! alias
       = (λ statuspb, if gtid then relayPositionOf statuspb
                      else plainPositionOf statuspb) <$> statusMap !! alias).
Proof.
  intros Hr Hok. pose proof (scanRelayLogs_spec _ _ _ Hr) as (Hg & _ & He).
  unfold FindPositionsOfAllCandidates in Hok.
  destruct (isGTIDBased (scanRelayLogs (range67 o))
            && FirstErrorRecorder.HasErrors _) eqn:Hc1.
  { apply andb_true_iff in Hc1 as [_ Hh].
    apply HasErrors_Some in Hh as [e Hh]. by rewrite Hh in Hok. }
  destruct (isGTIDBased (scanRelayLogs (range67 o)) && isNonGTIDBased _); [done|].
  rewrite (storePositions_fmap _ _ _ _ Hr) in Hok.
  destruct (storePrimaryPositions _ _) as [pm|e] eqn:Hp; [|done].
  injection Hok as <- <-.
  destruct Hr as (_ & _ & _ & H100).
  pose proof (storePrimaryPositions_Ok _ _ _ (range_NoDup _ _ H100) Hp) as Hpm.
  rewrite (range_to_map _ _ H100) in Hpm.
  split; [done|]. split.
  - intros alias ps Hps. specialize (Hpm alias). by rewrite Hps in Hpm.
  - intros alias Hps. specialize (Hpm alias). rewrite Hps in Hpm.
    by rewrite Hpm, lookup_fmap.
Qed.

Lemma storePrimaryPositions_total range positionMap0 :
  (∀ alias primaryStatus, (alias, primaryStatus) ∈ range →
     is_Ok (DecodePosition (PrimaryStatus.Position primaryStatus)) = true) →
  ∃ positionMap, storePrimaryPositions range positionMap0 = Ok positionMap.
Proof.
  revert positionMap0. induction range as [|[a ps] l IH]; intros m0 Hall.
  - by exists m0.
  - cbn [storePrimaryPositions].
    pose proof (Hall a ps ltac:(left)) as Hd.
    destruct (DecodePosition (PrimaryStatus.Position ps)) as [p|e]; [|done].
    apply IH. intros alias ps' Hin. apply (Hall alias ps'). by right.
Qed.

(** C7. If some node of the status map has a set-based (GTID) relay-log
    position and some node has a relay-log position that is not set-based,
    [FindPositionsOfAllCandidates] returns an error and no position map. *)
Theorem FindPositionsOfAllCandidates_mixed statusMap primaryStatusMap o :
  ranges_of statusMap primaryStatusMap o →
  (∃ alias statuspb, statusMap !! alias = Some statuspb
     ∧ IsMysql56GTIDSet (relayPositionOf statuspb) = true) →
  (∃ alias statuspb, statusMap !! alias = Some statuspb
     ∧ IsMysql56GTIDSet (relayPositionOf statuspb) = false) →
  ∃ e, FindPositionsOfAllCandidates o = Err e.
Proof.
  intros Hr Hgtid Hnon.
  pose proof (scanRelayLogs_spec _ _ _ Hr) as (Hg & Hn & _).
  apply Hg in Hgtid. apply Hn in Hnon. clear Hg Hn.
  unfold FindPositionsOfAllCandidates. rewrite Hgtid, Hnon. simpl.
  destruct (FirstErrorRecorder.HasErrors _) eqn:Hh.
  - apply HasErrors_Some in Hh as [e ->]. by exists e.
  - by eexists.
Qed.

(** C8. (1) If some node's relay-log position is set-based and some node's
    relay-log position is zero, [FindPositionsOfAllCandidates] fails, with
    the UNAVAILABLE error naming a node whose relay-log position is zero.
    (2) If no node's relay-log position is set-based, zero relay-log
    positions play no role: the call is the primary-status loop run on the
    map of plain replication positions, with flag false; (3) so it succeeds
    whenever every primary status decodes, and every node that is not in
    [primaryStatusMap] then has its plain replication position. *)
Theorem FindPositionsOfAllCandidates_zero_relay statusMap primaryStatusMap o :
  ranges_of statusMap primaryStatusMap o →
  ((∃ alias statuspb, statusMap !! alias = Some statuspb
      ∧ IsMysql56GTIDSet (relayPositionOf statuspb) = true) →
   (∃ alias statuspb, statusMap !! alias = Some statuspb
      ∧ IsZero (relayPositionOf statuspb) = true) →
   ∃ alias statuspb, statusMap !! alias = Some statuspb
     ∧ IsZero (relayPositionOf statuspb) = true
     ∧ FindPositionsOfAllCandidates o
       = Err (Errorf vtrpc.Code_UNAVAILABLE msg_no_relay_log_position
                [ArgString alias]))
  ∧ ((∀ alias statuspb, statusMap !! alias = Some statuspb →
        IsMysql56GTIDSet (relayPositionOf statuspb) = false) →
     FindPositionsOfAllCandidates o
     = match storePrimaryPositions (range100 o) (plainPositionOf <$> statusMap) with
       | Err e => Err e
       | Ok positionMap => Ok (positionMap, false)
       end
     ∧ ((∀ alias primaryStatus, primaryStatusMap !! alias = Some primaryStatus →
           is_Ok (DecodePosition (PrimaryStatus.Position primaryStatus)) = true) →
        ∃ positionMap,
          FindPositionsOfAllCandidates o = Ok (positionMap, false)
          ∧ ∀ alias, primaryStatusMap !! alias = None →
              positionMap !! alias = plainPositionOf <$> statusMap !! alias)).
Proof.
  intros Hr. pose proof (scanRelayLogs_spec _ _ _ Hr) as (Hg & _ & He).
  split.
  - intros Hgtid Hzero. apply Hg in Hgtid. apply He in Hzero.
    unfold FindPositionsOfAllCandidates. rewrite Hgtid, Hzero. simpl.
    apply HasErrors_Some in Hzero as [e Hrec]. rewrite Hrec.
    unfold scanRelayLogs in Hrec.
    apply scanRelayLogs_error in Hrec as [Hrec|(alias & st & Hin & Hz & ->)];
      [done|].
    destruct Hr as (H54 & H67 & _ & _).
    apply (range_elem_of _ _ _ _ H67) in Hin.
    rewrite (buildReplicationStatusMap_fmap _ _ H54) in Hin.
    apply lookup_fmap_Some in Hin as (statuspb & <- & Hst).
    by exists alias, statuspb.
  - intros Hnone.
    assert (isGTIDBased (scanRelayLogs (range67 o)) = false) as Hfalse.
    { destruct (isGTIDBased _) eqn:Hb; [|done].
      destruct Hg as [Hg _]. destruct (Hg eq_refl) as (a & st & Hst & Hm).
      rewrite (Hnone _ _ Hst) in Hm. done. }
    assert (FindPositionsOfAllCandidates o
            = match storePrimaryPositions (range100 o)
                      (plainPositionOf <$> statusMap) with
              | Err e => Err e
              | Ok positionMap => Ok (positionMap, false)
              end) as Heq.
    { unfold FindPositionsOfAllCandidates. rewrite Hfalse. simpl.
      by rewrite (storePositions_fmap _ _ _ false Hr). }
    split; [done|]. intros Hdec. rewrite Heq.
    destruct Hr as (_ & _ & _ & H100).
    destruct (storePrimaryPositions_total (range100 o)
                (plainPositionOf <$> statusMap)) as [pm Hpm].
    { intros alias ps Hin. apply (Hdec alias).
      by apply (range_elem_of _ _ _ _ H100). }
    rewrite Hpm. exists pm. split; [done|]. intros alias Hno.
    pose proof (storePrimaryPositions_Ok _ _ _ (range_NoDup _ _ H100) Hpm alias) as H.
    rewrite (range_to_map _ _ H100), Hno in H. by rewrite H, lookup_fmap.
Qed.

End FindPositionsClaims.

(** * Properties of SetReplicationSource and fillStatus *)

Section CallClaims.
Context {tmc : tmclient.TabletManagerClient} {ts : Topology}
        {dp : DurabilityPolicies} {se : SQLErrors}.

(** C10. When resolving the shard primary of the tablet fails, with
    whatever error, [SetReplicationSource] returns nil, and the topology
    lookup is the only call it has made: no replication-source RPC is
    issued and the durability policy is not consulted. *)
Theorem SetReplicationSource_primary_lookup_fails tablet e :
  GetShardPrimaryForTablet tablet = Err e →
  SetReplicationSource tablet = (None, [EvGetShardPrimaryForTablet tablet]).
Proof. intros He. unfold SetReplicationSource, call, bind. by rewrite He. Qed.

(** C9. When the stop-replication call of a polled node fails with the
    "not a replica" SQL error, [fillStatus] issues a demote call.  If the
    demotion succeeds, the returned primary status is stored under the
    node's alias in [primaryStatusMap], the node's tablet is appended to
    [reachableTablets], and the task reports success.  If it fails, the
    snapshot is left as it was and the task reports the demotion error,
    wrapped. *)
Theorem fillStatus_not_replica alias tabletInfo mustWaitForTablet res err :
  tmclient.StopReplicationAndGetStatus (TabletInfo.Tablet tabletInfo)
    StopReplicationMode_IOTHREADONLY = Err err →
  isNotReplicaError err = true →
  let log := [EvStopReplicationAndGetStatus (TabletInfo.Tablet tabletInfo)
                StopReplicationMode_IOTHREADONLY;
              EvDemotePrimary (TabletInfo.Tablet tabletInfo)] in
  (∀ primaryStatus,
     tmclient.DemotePrimary (TabletInfo.Tablet tabletInfo) = Ok primaryStatus →
     fillStatus alias tabletInfo mustWaitForTablet res
     = (({| statusMap := statusMap res;
            primaryStatusMap := <[alias := primaryStatus]> (primaryStatusMap res);
            reachableTablets := reachableTablets res ++ [TabletInfo.Tablet tabletInfo];
            tabletsBackupState := tabletsBackupState res |},
         {| concurrency.Err := None;
            concurrency.MustWaitFor := mustWaitForTablet |}), log))
  ∧ (∀ demoteErr,
       tmclient.DemotePrimary (TabletInfo.Tablet tabletInfo) = Err demoteErr →
       fillStatus alias tabletInfo mustWaitForTablet res
       = ((res,
           {| concurrency.Err :=
                Some (Wrapf demoteErr msg_failed_demote
                        [ArgString alias; ArgError demoteErr]);
              concurrency.MustWaitFor := mustWaitForTablet |}), log)).
Proof.
  intros Hstop Hnot log. unfold fillStatus, call, bind, ret.
  rewrite Hstop, Hnot. split; intros ? ->; done.
Qed.

End CallClaims.

Section CallWitnesses.
Import Sample.

Lemma SetReplicationSource_primary_lookup_fails_witness :
  SetReplicationSource (Sample.tablet 100)
  = (None, [EvGetShardPrimaryForTablet (Sample.tablet 100)]).
Proof.
  apply (SetReplicationSource_primary_lookup_fails (Sample.tablet 100)
           (Opaque_error "node doesn't exist")).
  reflexivity.
Defined.

Lemma fillStatus_not_replica_witness :
  (fillStatus (aliasOf 102) (info 102) false emptySnapshot).1.2
  = {| concurrency.Err := None; concurrency.MustWaitFor := false |}
  ∧ (fillStatus (aliasOf 104) (info 104) true emptySnapshot).1.1
    = emptySnapshot.
Proof.
  split.
  - destruct (fillStatus_not_replica (aliasOf 102) (info 102) false
                emptySnapshot notReplica) as [Hok _];
      [vm_compute; reflexivity | vm_compute; reflexivity |].
    rewrite (Hok {| PrimaryStatus.Position := "MySQL56/src1:1-10";
                    PrimaryStatus.FilePosition := "" |});
      [reflexivity | vm_compute; reflexivity].
  - destruct (fillStatus_not_replica (aliasOf 104) (info 104) true
                emptySnapshot notReplica) as [_ Hfail];
      [vm_compute; reflexivity | vm_compute; reflexivity |].
    rewrite (Hfail (Opaque_error "demote failed"));
      [reflexivity | vm_compute; reflexivity].
Defined.

End CallWitnesses.

(** * Properties of stopReplicationAndBuildStatusMaps *)

Section LaunchFacts.
Context {tmc : tmclient.TabletManagerClient} {ts : Topology}
        {dp : DurabilityPolicies} {se : SQLErrors}.

Lemma launch_goroutines_from ig w range st a :
  NoDup range.*1 →
  goroutines (foldl (launchStep ig w) st range) !! a
  = match (list_to_map range : gmap string TabletInfo.t) !! a with
    | Some tabletInfo =>
        if bool_decide (a ∈ ig) then goroutines st !! a
        else Some (tabletInfo, bool_decide (w = a))
    | None => goroutines st !! a
    end.
Proof.
  revert st. induction range as [|[b ti] l IH]; intros st Hnd; cbn [foldl].
  - cbn [list_to_map foldr]. by rewrite lookup_empty.
  - apply NoDup_cons in Hnd as [Hb Hnd]. rewrite IH by done.
    pose proof (not_elem_of_list_to_map_1 (M := gmap string) l b Hb) as Hn.
    cbn [list_to_map foldr uncurry fst snd].
    destruct (decide (b = a)) as [->|Hne].
    + rewrite Hn, lookup_insert_eq. unfold launchStep.
      destruct (bool_decide (a ∈ ig)); simpl; [done|].
      by rewrite lookup_insert_eq.
    + rewrite lookup_insert_ne by done.
      assert (goroutines (launchStep ig w st (b, ti)) !! a = goroutines st !! a)
        as ->; [|done].
      unfold launchStep. destruct (bool_decide (b ∈ ig)); simpl; [done|].
      by rewrite lookup_insert_ne.
Qed.

Lemma launch_numErrorsToWaitFor_from ig w range st :
  NoDup range.*1 →
  numErrorsToWaitFor (foldl (launchStep ig w) st range)
  = numErrorsToWaitFor st
    + (if bool_decide (w ∈ range.*1 ∧ w ∉ ig) then 1 else 0).
Proof.
  revert st. induction range as [|[b ti] l IH]; intros st Hnd; cbn [foldl].
  - rewrite bool_decide_eq_false_2; [lia|]. intros [H _]. by apply elem_of_nil in H.
  - apply NoDup_cons in Hnd as [Hb Hnd]. rewrite IH by done.
    unfold launchStep. cbn [fmap list_fmap fst] in *.
    destruct (decide (w = b)) as [->|Hne].
    + rewrite (bool_decide_eq_false_2 (b ∈ l.*1 ∧ _)) by tauto.
      destruct (decide (b ∈ ig)) as [Hi|Hi].
      * rewrite (bool_decide_eq_true_2 _ Hi). simpl.
        rewrite bool_decide_eq_false_2 by tauto. lia.
      * rewrite (bool_decide_eq_false_2 _ Hi). simpl.
        rewrite (bool_decide_eq_true_2 (b = b)) by done.
        rewrite bool_decide_eq_true_2; [lia|]. split; [left|done].
    + assert ((w ∈ b :: l.*1 ∧ w ∉ ig) ↔ (w ∈ l.*1 ∧ w ∉ ig)) as Hiff.
      { rewrite elem_of_cons. tauto. }
      rewrite (bool_decide_ext _ _ Hiff).
      destruct (bool_decide (b ∈ ig)); simpl; [done|].
      by rewrite (bool_decide_eq_false_2 (w = b)).
Qed.

Lemma range_keys {V : Type} (m : gmap string V) (l : list (string * V)) k :
  l ≡ₚ map_to_list m → k ∈ l.*1 ↔ is_Some (m !! k).
Proof.
  intros Hp. rewrite list_elem_of_fmap. split.
  - intros ([k' v] & -> & Hin). exists v. by apply (range_elem_of _ _ _ _ Hp).
  - intros [v Hv]. exists (k, v). split; [done|]. by apply (range_elem_of _ _ _ _ Hp).
Qed.

(** The goroutines started for [tabletMap]: one per non-ignored entry,
    flagged when its alias is the one to wait for. *)
Lemma launchGoroutines_lookup tabletMap ig w range a :
  range ≡ₚ map_to_list tabletMap →
  goroutines (launchGoroutines ig w range) !! a
  = if bool_decide (a ∈ ig) then None
    else ((λ tabletInfo, (tabletInfo, bool_decide (w = a))) <$> tabletMap !! a).
Proof.
  intros Hp. unfold launchGoroutines.
  rewrite launch_goroutines_from by by eapply range_NoDup.
  rewrite (range_to_map _ _ Hp). cbn [goroutines]. rewrite lookup_empty.
  destruct (tabletMap !! a), (bool_decide (a ∈ ig)); done.
Qed.

Lemma launchGoroutines_numErrorsToWaitFor tabletMap ig w range :
  range ≡ₚ map_to_list tabletMap →
  numErrorsToWaitFor (launchGoroutines ig w range)
  = if bool_decide (is_Some (tabletMap !! w) ∧ w ∉ ig) then 1 else 0.
Proof.
  intros Hp. unfold launchGoroutines.
  rewrite launch_numErrorsToWaitFor_from by by eapply range_NoDup.
  cbn [numErrorsToWaitFor].
  assert ((w ∈ range.*1 ∧ w ∉ ig) ↔ (is_Some (tabletMap !! w) ∧ w ∉ ig)) as Hiff.
  { by rewrite (range_keys _ _ _ Hp). }
  by rewrite (bool_decide_ext _ _ Hiff).
Qed.

Lemma goroutine_started tabletMap ig w range a tabletInfo mustWaitFor :
  range ≡ₚ map_to_list tabletMap →
  goroutines (launchGoroutines ig w range) !! a = Some (tabletInfo, mustWaitFor) →
  tabletMap !! a = Some tabletInfo ∧ (a ∉ ig)
  ∧ mustWaitFor = bool_decide (w = a).
Proof.
  intros Hp. rewrite (launchGoroutines_lookup _ _ _ _ _ Hp).
  case_bool_decide; [done|].
  destruct (tabletMap !! a) as [ti|]; simpl; [|done].
  intros [= <- <-]. done.
Qed.

End LaunchFacts.

(** ** The task group *)

Section WaitFacts.
Import concurrency.

Lemma observe_all_responses st l :
  responses (foldl observe st l) = responses st + Z.of_nat (length l).
Proof.
  revert st. induction l as [|m l IH]; intros st; cbn [foldl length].
  - lia.
  - rewrite IH. cbn [observe responses]. lia.
Qed.

Lemma observe_all_errors st l :
  Errors (recorder (foldl observe st l)) = Errors (recorder st) ++ omap Err l.
Proof.
  revert st. induction l as [|m l IH]; intros st; cbn [foldl omap list_omap].
  - by rewrite app_nil_r.
  - rewrite IH. cbn [observe recorder].
    destruct (Err m) as [e|]; cbn [Errors]; [|done].
    by rewrite <- app_assoc.
Qed.

Lemma observe_all_outstanding st l :
  outstandingMustWaitFor (foldl observe st l)
  = outstandingMustWaitFor st - Z.of_nat (length (flagged l)).
Proof.
  revert st. induction l as [|m l IH]; intros st; cbn [foldl].
  - cbn. lia.
  - rewrite IH. cbn [observe outstandingMustWaitFor]. unfold flagged.
    rewrite filter_cons. destruct (MustWaitFor m) eqn:Hm.
    + rewrite decide_True by done. cbn [length]. lia.
    + rewrite decide_False by done. lia.
Qed.

(** When [Wait] returns it has received a prefix of what the channel
    delivers, and the counting condition holds. *)
Lemma Wait_loop_Some eg st chan w :
  Wait_loop eg st chan = Some w →
  ∃ k, (k ≤ length chan)%nat
       ∧ w = foldl observe st (take k chan)
       ∧ converged eg w = true.
Proof.
  revert st. induction chan as [|m chan IH]; intros st; cbn [Wait_loop].
  - destruct (converged eg st) eqn:Hc; [|done]. intros [= <-].
    exists 0%nat. by rewrite take_0.
  - destruct (converged eg st) eqn:Hc.
    + intros [= <-]. exists 0%nat. rewrite take_0. cbn [length]. split; [lia|done].
    + intros Hw. destruct (IH _ Hw) as (k & Hk & -> & Hcw).
      exists (S k). cbn [length firstn take foldl]. split; [lia|done].
Qed.

(** [Wait] is not blocked for ever when the counting condition holds once
    everything was delivered. *)
Lemma Wait_loop_returns eg st chan :
  converged eg (foldl observe st chan) = true →
  is_Some (Wait_loop eg st chan).
Proof.
  revert st. induction chan as [|m chan IH]; intros st; cbn [Wait_loop foldl].
  - by intros ->.
  - intros Hc. destruct (converged eg st); [done|]. by apply IH.
Qed.

End WaitFacts.

(** ** The goroutines *)

Section GoroutineFacts.
Context {tmc : tmclient.TabletManagerClient} {ts : Topology}
        {dp : DurabilityPolicies} {se : SQLErrors}.

Ltac fillStatus_cases tabletInfo :=
  unfold fillStatus, call, bind, ret;
  destruct (tmclient.StopReplicationAndGetStatus (TabletInfo.Tablet tabletInfo) _)
    as [stopStatus|stopErr];
  [|destruct (isNotReplicaError stopErr);
    [destruct (tmclient.DemotePrimary (TabletInfo.Tablet tabletInfo))
       as [primaryStatus|demoteErr]|]];
  cbn [fst snd].

Lemma fillStatus_MustWaitFor alias tabletInfo mustWaitFor res :
  concurrency.MustWaitFor (fillStatus alias tabletInfo mustWaitFor res).1.2
  = mustWaitFor.
Proof. fillStatus_cases tabletInfo; done. Qed.

Lemma fillStatus_calls alias tabletInfo mustWaitFor res :
  Forall isTabletCall (fillStatus alias tabletInfo mustWaitFor res).2.
Proof. fillStatus_cases tabletInfo; repeat constructor. Qed.

(** A goroutine leaves the snapshot alone, or stores a status, or stores a
    primary status; in the last two cases its tablet becomes reachable. *)
Lemma fillStatus_snapshot alias tabletInfo mustWaitFor res :
  let res' := (fillStatus alias tabletInfo mustWaitFor res).1.1 in
  res' = res
  ∨ (∃ st, statusMap res' = <[alias := st]> (statusMap res)
           ∧ primaryStatusMap res' = primaryStatusMap res
           ∧ reachableTablets res'
             = reachableTablets res ++ [TabletInfo.Tablet tabletInfo])
  ∨ (∃ ps, statusMap res' = statusMap res
           ∧ primaryStatusMap res' = <[alias := ps]> (primaryStatusMap res)
           ∧ reachableTablets res'
             = reachableTablets res ++ [TabletInfo.Tablet tabletInfo]).
Proof.
  fillStatus_cases tabletInfo.
  - right. left. by eexists.
  - right. right. by eexists.
  - by left.
  - by left.
Qed.

Lemma fillStatus_inv gs ran alias tabletInfo mustWaitFor res :
  gs !! alias = Some (tabletInfo, mustWaitFor) →
  alias ∉ ran →
  snapshotInv gs ran res →
  snapshotInv gs (alias :: ran) (fillStatus alias tabletInfo mustWaitFor res).1.1.
Proof.
  intros Hgs Hnew [Hdisj Hkeys].
  assert (∀ k, is_Some (statusMap res !! k) ∨ is_Some (primaryStatusMap res !! k) →
               k ≠ alias) as Hfresh.
  { intros k Hk ->. by destruct (Hkeys _ Hk) as [? _]. }
  destruct (fillStatus_snapshot alias tabletInfo mustWaitFor res)
    as [->|[(st & Hs & Hp & Hr)|(ps & Hs & Hp & Hr)]].
  - split; [done|]. intros k Hk. destruct (Hkeys k Hk) as [Hin Hex].
    split; [by right|done].
  - split.
    + rewrite Hs, Hp. intros k Hks Hkp.
      destruct (decide (alias = k)) as [<-|Hne].
      * by apply (Hfresh alias); [right|].
      * rewrite lookup_insert_ne in Hks by done. by apply (Hdisj k).
    + rewrite Hs, Hp, Hr. intros k Hk.
      destruct (decide (alias = k)) as [<-|Hne].
      * split; [by left|]. exists tabletInfo, mustWaitFor. split; [done|].
        apply elem_of_app. right. by left.
      * rewrite lookup_insert_ne in Hk by done.
        destruct (Hkeys k Hk) as (Hin & ti & f & Hg & Hreach).
        split; [by right|]. exists ti, f. split; [done|].
        apply elem_of_app. by left.
  - split.
    + rewrite Hs, Hp. intros k Hks Hkp.
      destruct (decide (alias = k)) as [<-|Hne].
      * by apply (Hfresh alias); [left|].
      * rewrite lookup_insert_ne in Hkp by done. by apply (Hdisj k).
    + rewrite Hs, Hp, Hr. intros k Hk.
      destruct (decide (alias = k)) as [<-|Hne].
      * split; [by left|]. exists tabletInfo, mustWaitFor. split; [done|].
        apply elem_of_app. right. by left.
      * rewrite lookup_insert_ne in Hk by done.
        destruct (Hkeys k Hk) as (Hin & ti & f & Hg & Hreach).
        split; [by right|]. exists ti, f. split; [done|].
        apply elem_of_app. by left.
Qed.

Lemma snapshotInv_weaken gs ran ran' res :
  (∀ k, k ∈ ran → k ∈ ran') → snapshotInv gs ran res → snapshotInv gs ran' res.
Proof.
  intros Hsub [Hdisj Hkeys]. split; [done|]. intros k Hk.
  destruct (Hkeys k Hk) as [Hin Hex]. split; [by apply Hsub|done].
Qed.

Lemma runGoroutines_step gs a order res tabletInfo mustWaitFor :
  gs !! a = Some (tabletInfo, mustWaitFor) →
  runGoroutines gs (a :: order) res
  = ((runGoroutines gs order (fillStatus a tabletInfo mustWaitFor res).1.1).1,
     (fillStatus a tabletInfo mustWaitFor res).2
     ++ (runGoroutines gs order (fillStatus a tabletInfo mustWaitFor res).1.1).2).
Proof.
  intros Hg. cbn [runGoroutines]. rewrite Hg. unfold bind.
  destruct (fillStatus a tabletInfo mustWaitFor res) as [[res' m] l1].
  cbn [fst snd]. by destruct (runGoroutines gs order res').
Qed.

Lemma runGoroutines_skip gs a order res :
  gs !! a = None → runGoroutines gs (a :: order) res = runGoroutines gs order res.
Proof. intros Hg. cbn [runGoroutines]. by rewrite Hg. Qed.

Lemma runGoroutines_inv gs order ran res :
  NoDup order →
  (∀ a, a ∈ order → a ∉ ran) →
  snapshotInv gs ran res →
  snapshotInv gs (reverse order ++ ran) (runGoroutines gs order res).1.
Proof.
  revert ran res. induction order as [|a order IH]; intros ran res Hnd Hfresh Hinv.
  - done.
  - apply NoDup_cons in Hnd as [Ha Hnd].
    rewrite reverse_cons, <- app_assoc. cbn [app].
    assert (∀ b, b ∈ order → b ∉ a :: ran) as Hfresh'.
    { intros b Hb [->|Hin]%elem_of_cons; [done|].
      by apply (Hfresh b); [right|]. }
    destruct (gs !! a) as [[ti f]|] eqn:Hg.
    + rewrite (runGoroutines_step _ _ _ _ _ _ Hg). cbn [fst].
      apply IH; [done|done|].
      apply fillStatus_inv; [done| |done]. apply Hfresh. by left.
    + rewrite (runGoroutines_skip _ _ _ _ Hg). apply IH; [done|done|].
      eapply snapshotInv_weaken; [|done]. intros k Hk. by right.
Qed.

Lemma runGoroutines_calls gs order res :
  Forall isTabletCall (runGoroutines gs order res).2.
Proof.
  revert res. induction order as [|a order IH]; intros res.
  - constructor.
  - destruct (gs !! a) as [[ti f]|] eqn:Hg.
    + rewrite (runGoroutines_step _ _ _ _ _ _ Hg). cbn [snd].
      apply Forall_app. split; [apply fillStatus_calls|apply IH].
    + rewrite (runGoroutines_skip _ _ _ _ Hg). apply IH.
Qed.

Lemma messageOf_Some gs alias m :
  messageOf gs alias = Some m →
  ∃ tabletInfo, gs !! alias = Some (tabletInfo, concurrency.MustWaitFor m).
Proof.
  unfold messageOf. destruct (gs !! alias) as [[ti f]|]; [|done].
  intros [= <-]. exists ti. by rewrite fillStatus_MustWaitFor.
Qed.

Lemma messageOf_started gs alias :
  is_Some (gs !! alias) → is_Some (messageOf gs alias).
Proof. unfold messageOf. intros [[ti f] ->]. by eexists. Qed.

Lemma errChan_take gs order k :
  (∀ a, a ∈ order → is_Some (gs !! a)) →
  take k (errChan gs order) = errChan gs (take k order).
Proof.
  revert k. induction order as [|a order IH]; intros k Hall.
  - by destruct k.
  - destruct k as [|k]; [done|]. unfold errChan in *. cbn [omap list_omap].
    destruct (messageOf_started gs a) as [m Hm]; [apply Hall; by left|].
    rewrite Hm. cbn [take firstn omap list_omap]. rewrite Hm. f_equal.
    apply IH. intros b Hb. apply Hall. by right.
Qed.

Lemma errChan_length gs order :
  (∀ a, a ∈ order → is_Some (gs !! a)) →
  length (errChan gs order) = length order.
Proof.
  induction order as [|a order IH]; intros Hall; [done|].
  unfold errChan in *. cbn [omap list_omap].
  destruct (messageOf_started gs a) as [m Hm]; [apply Hall; by left|].
  rewrite Hm. cbn [length]. f_equal. apply IH. intros b Hb. apply Hall. by right.
Qed.

End GoroutineFacts.

(** ** The call as a whole *)

Section SnapshotFacts.
Context {tmc : tmclient.TabletManagerClient} {ts : Topology}
        {dp : DurabilityPolicies} {se : SQLErrors}.

Lemma started_dom tabletMap ig w range :
  range ≡ₚ map_to_list tabletMap →
  dom (goroutines (launchGoroutines ig w range)) = dom tabletMap ∖ ig.
Proof.
  intros Hp. apply set_eq. intros k.
  rewrite elem_of_difference, !elem_of_dom, (launchGoroutines_lookup _ _ _ _ _ Hp).
  case_bool_decide as Hk.
  - split; [by intros [? ?]|tauto].
  - rewrite fmap_is_Some. tauto.
Qed.

(** [numGoRoutines] never exceeds the number of goroutines started. *)
Lemma started_count tabletMap ig w range :
  range ≡ₚ map_to_list tabletMap →
  (size tabletMap ≤ size ig + size (goroutines (launchGoroutines ig w range)))%nat.
Proof.
  intros Hp.
  assert (size (dom tabletMap : gset string) = size tabletMap) as <- by apply size_dom.
  assert (size (dom (goroutines (launchGoroutines ig w range)) : gset string)
          = size (goroutines (launchGoroutines ig w range))) as <- by apply size_dom.
  rewrite (started_dom _ _ _ _ Hp).
  transitivity (size (ig ∪ dom tabletMap ∖ ig)).
  - apply subseteq_size. intros k Hk. apply elem_of_union.
    destruct (decide (k ∈ ig)); [by left|right]. by apply elem_of_difference.
  - rewrite size_union_alt.
    assert (size ((dom tabletMap ∖ ig) ∖ ig) ≤ size (dom tabletMap ∖ ig))%nat; [|lia].
    apply subseteq_size. intros k Hk. by apply elem_of_difference in Hk as [? _].
Qed.

Lemma received_count (gs : gmap string (TabletInfo.t * bool)) (order : list string) :
  NoDup order →
  (∀ a, is_Some (gs !! a) → a ∈ order) →
  (size gs ≤ length order)%nat.
Proof.
  intros Hnd Hall.
  assert (size (dom gs : gset string) = size gs) as <- by apply size_dom.
  rewrite <- (size_list_to_set (C := gset string) order Hnd).
  apply subseteq_size. intros k Hk. apply elem_of_list_to_set, Hall.
  by apply elem_of_dom.
Qed.

(** Once every started goroutine has reported, [Wait] has returned. *)
Lemma waitOutcome_returns tabletMap ig wf wfa x :
  execution_of tabletMap ig wf wfa x →
  all_report ig wf x →
  is_Some (waitOutcome tabletMap ig wf wfa x).
Proof.
  intros (Hp & _ & _ & Hnd & Hrecv & _) Hall.
  unfold all_report in Hall. unfold waitOutcome, concurrency.Wait.
  unfold startedGoroutines in *.
  set (w := tabletAliasToWaitFor wf) in *.
  set (gs := goroutines (launchGoroutines ig w (range260 x))) in *.
  apply Wait_loop_returns. unfold concurrency.converged.
  rewrite observe_all_outstanding, observe_all_responses.
  cbn [concurrency.waitStart concurrency.outstandingMustWaitFor
       concurrency.responses buildErrorGroup concurrency.NumErrorsToWaitFor
       concurrency.NumGoroutines].
  apply andb_true_intro. split.
  - apply Z.leb_le.
    rewrite (launchGoroutines_numErrorsToWaitFor _ _ _ _ Hp).
    case_bool_decide as Hw; [|lia]. destruct Hw as [[ti Hti] Hig].
    assert (gs !! w = Some (ti, true)) as Hgw.
    { unfold gs. rewrite (launchGoroutines_lookup _ _ _ _ _ Hp).
      rewrite bool_decide_eq_false_2 by done. rewrite Hti. simpl.
      by rewrite bool_decide_eq_true_2. }
    destruct (messageOf_started gs w) as [m Hm]; [by eexists|].
    assert (m ∈ flagged (errChan gs (received x))) as Hin.
    { apply list_elem_of_filter. split.
      - apply messageOf_Some in Hm as [ti' Hm]. rewrite Hgw in Hm. congruence.
      - apply list_elem_of_omap. exists w. split; [|done]. apply Hall. by eexists. }
    destruct (flagged (errChan gs (received x))); [by apply elem_of_nil in Hin|].
    cbn [length]. lia.
  - apply orb_true_iff. right. apply Z.leb_le.
    rewrite (errChan_length _ _ Hrecv).
    pose proof (started_count _ ig w _ Hp) as Hc1.
    pose proof (received_count gs (received x) Hnd Hall) as Hc2.
    fold gs in Hc1. lia.
Qed.

(** What the call returns, given what [Wait] returned. *)
Lemma stopReplicationAndBuildStatusMaps_unfold
    tabletMap ig wf (durability : Durabler) wfa x w :
  waitOutcome tabletMap ig wf wfa x = Some w →
  let l := startedGoroutines ig wf x in
  let run := builtSnapshot ig wf x in
  let log' := run.2 ++ [EvHaveRevoked (reachableTablets run.1) (allTablets l)] in
  stopReplicationAndBuildStatusMaps tabletMap ig wf durability wfa x
  = if (length (concurrency.Errors (concurrency.recorder w)) <=? 1)%nat
    then Some {| snapshot := Some run.1; returnedError := None; calls := run.2 |}
    else if negb (haveRevoked durability (reachableTablets run.1) (allTablets l))
    then Some {| snapshot := None;
                 returnedError :=
                   match concurrency.AllErrorRecorder_Error (concurrency.recorder w) with
                   | Some e => Some (Wrapf e msg_insufficient [ArgError e])
                   | None => None
                   end;
                 calls := log' |}
    else Some {| snapshot := Some run.1; returnedError := None; calls := log' |}.
Proof.
  intros Hw l run log'. unfold stopReplicationAndBuildStatusMaps.
  rewrite Hw. fold l. fold run. unfold log'. by destruct run.
Qed.

End SnapshotFacts.

Section SnapshotClaims.
Context {tmc : tmclient.TabletManagerClient} {ts : Topology}
        {dp : DurabilityPolicies} {se : SQLErrors}.

(** C1. In an execution in which every started goroutine reports, the call
    returns.  Whenever [Wait] has returned with at most one recorded error,
    the call returns the snapshot built by the goroutines, with no error,
    and its log holds tablet RPCs only: [haveRevoked] was not called. *)
Theorem stopReplicationAndBuildStatusMaps_trivially_safe
    tabletMap ig wf (durability : Durabler) wfa x :
  execution_of tabletMap ig wf wfa x →
  (all_report ig wf x →
   is_Some (stopReplicationAndBuildStatusMaps tabletMap ig wf durability wfa x))
  ∧ (∀ w,
       waitOutcome tabletMap ig wf wfa x = Some w →
       (length (concurrency.Errors (concurrency.recorder w)) ≤ 1)%nat →
       stopReplicationAndBuildStatusMaps tabletMap ig wf durability wfa x
       = Some {| snapshot := Some (builtSnapshot ig wf x).1;
                 returnedError := None;
                 calls := (builtSnapshot ig wf x).2 |}
       ∧ ∀ reachable all,
           EvHaveRevoked reachable all ∉ (builtSnapshot ig wf x).2).
Proof.
  intros Hx. split.
  - intros Hall. destruct (waitOutcome_returns _ _ _ _ _ Hx Hall) as [w Hw].
    rewrite (stopReplicationAndBuildStatusMaps_unfold _ _ _ durability _ _ _ Hw).
    destruct (_ <=? _)%nat; [by eexists|]. destruct (negb _); by eexists.
  - intros w Hw Hlen.
    rewrite (stopReplicationAndBuildStatusMaps_unfold _ _ _ durability _ _ _ Hw).
    apply Nat.leb_le in Hlen. rewrite Hlen. split; [done|].
    intros reachable all Hin.
    pose proof (runGoroutines_calls (goroutines (startedGoroutines ig wf x))
                  (updated x) emptySnapshot) as Hcalls.
    by apply (proj1 (Forall_forall _ _) Hcalls) in Hin.
Qed.

(** C2. Whenever [Wait] has returned with two or more recorded errors and
    the fencing check, called on the reachable tablets of the snapshot and
    on all tablets, answers false, the call returns no snapshot; the error
    it returns is the "could not reach sufficient tablets" wrapping of the
    first recorded error, which is the error reported by one of the
    goroutines. *)
Theorem stopReplicationAndBuildStatusMaps_insufficient
    tabletMap ig wf (durability : Durabler) wfa x w :
  execution_of tabletMap ig wf wfa x →
  waitOutcome tabletMap ig wf wfa x = Some w →
  (2 ≤ length (concurrency.Errors (concurrency.recorder w)))%nat →
  haveRevoked durability (reachableTablets (builtSnapshot ig wf x).1)
    (allTablets (startedGoroutines ig wf x)) = false →
  ∃ e alias m,
    head (concurrency.Errors (concurrency.recorder w)) = Some e
    ∧ alias ∈ received x
    ∧ messageOf (goroutines (startedGoroutines ig wf x)) alias = Some m
    ∧ concurrency.Err m = Some e
    ∧ stopReplicationAndBuildStatusMaps tabletMap ig wf durability wfa x
      = Some {| snapshot := None;
                returnedError := Some (Wrapf e msg_insufficient [ArgError e]);
                calls :=
                  (builtSnapshot ig wf x).2
                  ++ [EvHaveRevoked (reachableTablets (builtSnapshot ig wf x).1)
                        (allTablets (startedGoroutines ig wf x))] |}.
Proof.
  intros Hx Hw Hlen Hrev.
  rewrite (stopReplicationAndBuildStatusMaps_unfold _ _ _ durability _ _ _ Hw).
  rewrite Hrev. cbn [negb].
  assert ((length (concurrency.Errors (concurrency.recorder w)) <=? 1)%nat = false)
    as -> by (apply Nat.leb_gt; lia).
  unfold waitOutcome, concurrency.Wait in Hw.
  apply Wait_loop_Some in Hw as (k & Hk & -> & _).
  rewrite observe_all_errors in *. cbn [concurrency.waitStart concurrency.recorder
    concurrency.Errors app] in *.
  unfold concurrency.AllErrorRecorder_Error. rewrite observe_all_errors.
  cbn [concurrency.waitStart concurrency.recorder concurrency.Errors app].
  destruct (omap concurrency.Err (take k _)) as [|e rest] eqn:Herrs;
    [cbn in Hlen; lia|].
  assert (e ∈ omap concurrency.Err
            (take k (errChan (goroutines (startedGoroutines ig wf x)) (received x))))
    as Hin by (rewrite Herrs; by left).
  apply list_elem_of_omap in Hin as (m & Hm & He).
  apply elem_of_take in Hm as (i & Hm & _).
  apply list_elem_of_lookup_2 in Hm.
  apply list_elem_of_omap in Hm as (alias & Halias & Hmsg).
  exists e, alias, m. done.
Qed.

(** C3. In every snapshot the call returns, no alias is a key of both
    [statusMap] and [primaryStatusMap], and for every key of either map the
    tablet stored under that alias in the tablet map is a member of
    [reachableTablets]. *)
Theorem stopReplicationAndBuildStatusMaps_snapshot_invariant
    tabletMap ig wf (durability : Durabler) wfa x out res :
  execution_of tabletMap ig wf wfa x →
  stopReplicationAndBuildStatusMaps tabletMap ig wf durability wfa x = Some out →
  snapshot out = Some res →
  dom (statusMap res) ## dom (primaryStatusMap res)
  ∧ ∀ alias,
      alias ∈ dom (statusMap res) ∪ dom (primaryStatusMap res) →
      ∃ tabletInfo,
        tabletMap !! alias = Some tabletInfo
        ∧ TabletInfo.Tablet tabletInfo ∈ reachableTablets res.
Proof.
  intros (Hp & Hnd & _) Hout Hres.
  assert (res = (builtSnapshot ig wf x).1) as ->.
  { destruct (waitOutcome tabletMap ig wf wfa x) as [w|] eqn:Hw.
    - rewrite (stopReplicationAndBuildStatusMaps_unfold _ _ _ durability _ _ _ Hw)
        in Hout.
      destruct (_ <=? _)%nat; [|destruct (negb _)];
        injection Hout as <-; cbn [snapshot] in Hres; congruence.
    - unfold stopReplicationAndBuildStatusMaps in Hout. by rewrite Hw in Hout. }
  unfold builtSnapshot.
  destruct (runGoroutines_inv (goroutines (startedGoroutines ig wf x))
              (updated x) [] emptySnapshot Hnd) as [Hdisj Hkeys].
  { intros a _ Ha. by apply elem_of_nil in Ha. }
  { split.
    - intros k [? Hk]. cbn [emptySnapshot statusMap] in Hk.
      by rewrite lookup_empty in Hk.
    - intros k [[? Hk]|[? Hk]];
        cbn [emptySnapshot statusMap primaryStatusMap] in Hk;
        by rewrite lookup_empty in Hk. }
  split.
  - intros k Hks Hkp. apply elem_of_dom in Hks, Hkp. by apply (Hdisj k).
  - intros alias Hin.
    destruct (Hkeys alias) as (_ & ti & f & Hg & Hreach).
    { apply elem_of_union in Hin as [Hin|Hin]; apply elem_of_dom in Hin; tauto. }
    exists ti. split; [|done].
    by apply (goroutine_started _ _ _ _ _ _ _ Hp) in Hg as [? _].
Qed.

End SnapshotClaims.

Section WaitClaims.
Context {tmc : tmclient.TabletManagerClient} {ts : Topology}
        {dp : DurabilityPolicies} {se : SQLErrors}.

Lemma observe_all_successes st l :
  concurrency.successes (foldl concurrency.observe st l)
  = concurrency.successes st
    + Z.of_nat (length (filter (λ m, concurrency.Err m = None) l)).
Proof.
  revert st. induction l as [|m l IH]; intros st; cbn [foldl].
  - cbn. lia.
  - rewrite IH. cbn [concurrency.observe concurrency.successes].
    rewrite filter_cons. destruct (concurrency.Err m) eqn:Hm.
    + rewrite decide_False by done. lia.
    + rewrite decide_True by done. cbn [length]. lia.
Qed.

(** C4. Let the tablet to wait for be a non-ignored tablet of the map.  In
    an execution in which every started goroutine reports, [Wait] returns.
    Whenever [Wait] returns, whatever the other goroutines have reported
    before, the message of the flagged goroutine is among those [Wait] has
    received, and it has been classified: its error is in the recorder, or
    it was counted as a success. *)
Theorem Wait_waits_for_flagged_tablet tabletMap ig ta wfa x tabletInfo :
  execution_of tabletMap ig (Some ta) wfa x →
  tabletMap !! TabletAliasString ta = Some tabletInfo →
  TabletAliasString ta ∉ ig →
  (all_report ig (Some ta) x →
   is_Some (waitOutcome tabletMap ig (Some ta) wfa x))
  ∧ ∀ w,
      waitOutcome tabletMap ig (Some ta) wfa x = Some w →
      TabletAliasString ta
        ∈ take (Z.to_nat (concurrency.responses w)) (received x)
      ∧ ∃ m,
          messageOf (goroutines (startedGoroutines ig (Some ta) x))
            (TabletAliasString ta) = Some m
          ∧ concurrency.MustWaitFor m = true
          ∧ match concurrency.Err m with
            | Some e => e ∈ concurrency.Errors (concurrency.recorder w)
            | None => 1 ≤ concurrency.successes w
            end.
Proof.
  intros Hx Hti Hig. split; [by apply waitOutcome_returns|].
  destruct Hx as (Hp & _ & _ & Hnd & Hrecv & _).
  intros w Hw. unfold waitOutcome, concurrency.Wait in Hw.
  unfold startedGoroutines in *. cbn [tabletAliasToWaitFor] in *.
  set (a := TabletAliasString ta) in *.
  set (gs := goroutines (launchGoroutines ig a (range260 x))) in *.
  apply Wait_loop_Some in Hw as (k & Hk & -> & Hc).
  rewrite (errChan_length _ _ Hrecv) in Hk.
  rewrite (errChan_take _ _ _ Hrecv) in *.
  assert (∀ b, b ∈ take k (received x) → is_Some (gs !! b)) as Hrecv'.
  { intros b Hb. apply Hrecv. apply elem_of_take in Hb as (i & Hb & _).
    by eapply list_elem_of_lookup_2. }
  rewrite observe_all_responses, (errChan_length _ _ Hrecv'), length_take.
  cbn [concurrency.waitStart concurrency.responses].
  replace (Z.to_nat (0 + Z.of_nat (k `min` length (received x)))) with k by lia.
  unfold concurrency.converged in Hc. apply andb_true_iff in Hc as [Hc _].
  apply Z.leb_le in Hc. rewrite observe_all_outstanding in Hc.
  cbn [concurrency.waitStart concurrency.outstandingMustWaitFor buildErrorGroup
       concurrency.NumErrorsToWaitFor] in Hc.
  rewrite (launchGoroutines_numErrorsToWaitFor _ _ _ _ Hp) in Hc.
  rewrite bool_decide_eq_true_2 in Hc by (split; [by eexists|done]).
  destruct (flagged (errChan gs (take k (received x)))) as [|m rest] eqn:Hfl;
    [cbn in Hc; lia|].
  assert (m ∈ flagged (errChan gs (take k (received x)))) as Hm
    by (rewrite Hfl; by left).
  apply list_elem_of_filter in Hm as [Hflag Hm].
  pose proof Hm as Hm'.
  apply list_elem_of_omap in Hm' as (b & Hb & Hmsg).
  assert (b = a) as ->.
  { destruct (messageOf_Some _ _ _ Hmsg) as [ti Hg]. rewrite Hflag in Hg.
    apply (goroutine_started _ _ _ _ _ _ _ Hp) in Hg as (_ & _ & Heq).
    symmetry in Heq. by apply bool_decide_eq_true_1 in Heq. }
  split; [done|]. exists m. split_and!; [done|done|].
  destruct (concurrency.Err m) as [e|] eqn:He.
  - rewrite observe_all_errors. cbn [concurrency.waitStart concurrency.recorder
      concurrency.Errors app].
    apply list_elem_of_omap. by exists m.
  - rewrite observe_all_successes. cbn [concurrency.waitStart concurrency.successes].
    assert (m ∈ filter (λ m, concurrency.Err m = None)
                  (errChan gs (take k (received x)))) as Hs
      by by apply list_elem_of_filter.
    destruct (filter _ _); [by apply elem_of_nil in Hs|]. cbn [length]. lia.
Qed.

(** When every ignored alias is a key of the tablet map, the threshold
    handed to the task group is the one of the specification. *)
Lemma requiredSuccesses_ignored_in_map
    (tabletMap : gmap string TabletInfo.t) (ig : gset string) wfa n :
  ig ⊆ dom tabletMap →
  concurrency.NumRequiredSuccesses (buildErrorGroup tabletMap ig wfa n)
  = specRequiredSuccesses tabletMap ig wfa.
Proof.
  intros Hsub. unfold specRequiredSuccesses, numCandidates.
  cbn [buildErrorGroup concurrency.NumRequiredSuccesses].
  assert (dom (filter (λ kv : string * TabletInfo.t, kv.1 ∉ ig) tabletMap)
          = dom tabletMap ∖ ig) as Hdom.
  { apply dom_filter_L. intros k. rewrite elem_of_difference, elem_of_dom.
    split.
    - intros [[v Hv] Hk]. by exists v.
    - intros (v & Hv & Hk). split; [by exists v|done]. }
  assert (size (filter (λ kv : string * TabletInfo.t, kv.1 ∉ ig) tabletMap)
          = (size tabletMap - size ig)%nat) as ->.
  { rewrite <- (size_dom (D := gset string)), Hdom, size_difference by done.
    by rewrite size_dom. }
  pose proof (subseteq_size _ _ Hsub) as Hle.
  rewrite size_dom in Hle. destruct wfa; lia.
Qed.

End WaitClaims.

Section ThresholdCase.
Import Sample.

(** C5, at a failing input.  With the tablets 100 and 101 in the map and
    an ignored set that holds the alias of a tablet that is not in the map,
    two goroutines are started and both tablets are non-ignored, so the
    threshold of the specification is 1, but the threshold handed to the
    task group is 0. *)
Theorem requiredSuccesses_ignored_alias_outside_map :
  concurrency.NumRequiredSuccesses
    (buildErrorGroup (tabletMap [100; 101]) {[aliasOf 999]} false 0) = 0
  ∧ specRequiredSuccesses (tabletMap [100; 101]) {[aliasOf 999]} false = 1
  ∧ size (goroutines
            (launchGoroutines {[aliasOf 999]} ""
               (map_to_list (tabletMap [100; 101])))) = 2%nat.
Proof. vm_compute. done. Qed.

End ThresholdCase.

(** * The statements on the sample cluster *)

Section Checked.
Context {tmc : tmclient.TabletManagerClient} {ts : Topology}
        {dp : DurabilityPolicies} {se : SQLErrors}.

Lemma forallb_elem_of {A : Type} (f : A → bool) (l : list A) :
  forallb f l = true → ∀ a, a ∈ l → f a = true.
Proof.
  intros H a Ha. apply (proj1 (forallb_forall f l) H). by apply list_elem_of_In.
Qed.

Lemma execution_of_checked tabletMap ig wf wfa x :
  range260 x ≡ₚ map_to_list tabletMap →
  check_execution tabletMap ig wf wfa x = true →
  execution_of tabletMap ig wf wfa x.
Proof.
  intros Hp Hc. unfold check_execution in Hc.
  apply andb_true_iff in Hc as [Hc Hlink].
  apply andb_true_iff in Hc as [Hc Hrecv].
  apply andb_true_iff in Hc as [Hc Hnd2].
  apply andb_true_iff in Hc as [Hnd1 Hupd].
  apply bool_decide_eq_true_1 in Hnd1, Hnd2.
  unfold execution_of. split_and!; [done|done| |done| |].
  - intros a Ha. pose proof (forallb_elem_of _ _ Hupd a Ha) as Hb.
    by apply bool_decide_eq_true_1 in Hb.
  - intros a Ha. pose proof (forallb_elem_of _ _ Hrecv a Ha) as Hb.
    by apply bool_decide_eq_true_1 in Hb.
  - intros w Hw a Ha. rewrite Hw in Hlink.
    pose proof (forallb_elem_of _ _ Hlink a Ha) as Hb.
    by apply bool_decide_eq_true_1 in Hb.
Qed.

End Checked.

Section SampleWitnesses.
Import Sample.

Lemma stopReplicationAndBuildStatusMaps_trivially_safe_witness :
  stopReplicationAndBuildStatusMaps (tabletMap [100; 101; 103]) ∅ None
    twoReachable false (inOrder (tabletMap [100; 101; 103]) [103; 100; 101])
  = Some {| snapshot :=
              Some (builtSnapshot ∅ None
                      (inOrder (tabletMap [100; 101; 103]) [103; 100; 101])).1;
            returnedError := None;
            calls :=
              (builtSnapshot ∅ None
                 (inOrder (tabletMap [100; 101; 103]) [103; 100; 101])).2 |}
  ∧ ∀ reachable all,
      EvHaveRevoked reachable all
      ∉ (builtSnapshot ∅ None
           (inOrder (tabletMap [100; 101; 103]) [103; 100; 101])).2.
Proof.
  destruct (stopReplicationAndBuildStatusMaps_trivially_safe
              (tabletMap [100; 101; 103]) ∅ None twoReachable false
              (inOrder (tabletMap [100; 101; 103]) [103; 100; 101])) as [_ H].
  { apply execution_of_checked; [reflexivity | vm_compute; reflexivity]. }
  apply (H {| concurrency.successes := 2; concurrency.errors := 1;
              concurrency.responses := 3;
              concurrency.outstandingMustWaitFor := 0;
              concurrency.recorder :=
                {| concurrency.Errors := [unreachableError 103] |} |}).
  - vm_compute. reflexivity.
  - simpl. lia.
Defined.

Lemma stopReplicationAndBuildStatusMaps_insufficient_witness :
  stopReplicationAndBuildStatusMaps (tabletMap [100; 103; 105]) ∅ None
    twoReachable false (inOrder (tabletMap [100; 103; 105]) [103; 105; 100])
  = Some {| snapshot := None;
            returnedError :=
              Some (Wrapf (unreachableError 103) msg_insufficient
                      [ArgError (unreachableError 103)]);
            calls :=
              (builtSnapshot ∅ None
                 (inOrder (tabletMap [100; 103; 105]) [103; 105; 100])).2
              ++ [EvHaveRevoked
                    (reachableTablets
                       (builtSnapshot ∅ None
                          (inOrder (tabletMap [100; 103; 105]) [103; 105; 100])).1)
                    (allTablets
                       (startedGoroutines ∅ None
                          (inOrder (tabletMap [100; 103; 105]) [103; 105; 100])))] |}.
Proof.
  destruct (stopReplicationAndBuildStatusMaps_insufficient
              (tabletMap [100; 103; 105]) ∅ None twoReachable false
              (inOrder (tabletMap [100; 103; 105]) [103; 105; 100])
              {| concurrency.successes := 1; concurrency.errors := 2;
                 concurrency.responses := 3;
                 concurrency.outstandingMustWaitFor := 0;
                 concurrency.recorder :=
                   {| concurrency.Errors :=
                        [unreachableError 103; unreachableError 105] |} |})
    as (e & alias & m & Hhead & _ & _ & _ & Heq).
  - apply execution_of_checked; [reflexivity | vm_compute; reflexivity].
  - vm_compute. reflexivity.
  - simpl. lia.
  - vm_compute. reflexivity.
  - simpl in Hhead. injection Hhead as <-. exact Heq.
Defined.

Lemma stopReplicationAndBuildStatusMaps_snapshot_invariant_witness :
  dom (statusMap (builtSnapshot ∅ None
                    (inOrder (tabletMap [100; 101; 102]) [102; 100; 101])).1)
  ## dom (primaryStatusMap
            (builtSnapshot ∅ None
               (inOrder (tabletMap [100; 101; 102]) [102; 100; 101])).1)
  ∧ ∀ alias,
      alias ∈ dom (statusMap
                     (builtSnapshot ∅ None
                        (inOrder (tabletMap [100; 101; 102]) [102; 100; 101])).1)
              ∪ dom (primaryStatusMap
                       (builtSnapshot ∅ None
                          (inOrder (tabletMap [100; 101; 102]) [102; 100; 101])).1) →
      ∃ tabletInfo,
        tabletMap [100; 101; 102] !! alias = Some tabletInfo
        ∧ TabletInfo.Tablet tabletInfo
          ∈ reachableTablets
              (builtSnapshot ∅ None
                 (inOrder (tabletMap [100; 101; 102]) [102; 100; 101])).1.
Proof.
  apply (stopReplicationAndBuildStatusMaps_snapshot_invariant
           (tabletMap [100; 101; 102]) ∅ None twoReachable false
           (inOrder (tabletMap [100; 101; 102]) [102; 100; 101])
           {| snapshot :=
                Some (builtSnapshot ∅ None
                        (inOrder (tabletMap [100; 101; 102]) [102; 100; 101])).1;
              returnedError := None;
              calls :=
                (builtSnapshot ∅ None
                   (inOrder (tabletMap [100; 101; 102]) [102; 100; 101])).2 |}).
  - apply execution_of_checked; [reflexivity | vm_compute; reflexivity].
  - vm_compute. reflexivity.
  - reflexivity.
Defined.

Lemma Wait_waits_for_flagged_tablet_witness :
  aliasOf 102 ∈ take 3 [aliasOf 100; aliasOf 101; aliasOf 102].
Proof.
  destruct (Wait_waits_for_flagged_tablet
              (tabletMap [100; 101; 102]) ∅
              {| TabletAlias.Cell := "zone1"; TabletAlias.Uid := 102 |} false
              (inOrder (tabletMap [100; 101; 102]) [100; 101; 102])
              (info 102))
    as [_ H].
  - apply execution_of_checked; [reflexivity | vm_compute; reflexivity].
  - vm_compute. reflexivity.
  - apply not_elem_of_empty.
  - destruct (H {| concurrency.successes := 3; concurrency.errors := 0;
                   concurrency.responses := 3;
                   concurrency.outstandingMustWaitFor := 0;
                   concurrency.recorder := {| concurrency.Errors := [] |} |})
      as [Hin _].
    + vm_compute. reflexivity.
    + exact Hin.
Defined.

Lemma canonicalRanges_of sm pm : ranges_of sm pm (canonicalRanges sm pm).
Proof. by repeat split. Qed.

Lemma FindPositionsOfAllCandidates_result_witness :
  (true = true ↔
     ∃ alias statuspb, gtidStatusMap !! alias = Some statuspb
       ∧ IsMysql56GTIDSet (relayPositionOf statuspb) = true)
  ∧ (∀ alias primaryStatus,
       primaries !! alias = Some primaryStatus →
       ∃ p, DecodePosition (PrimaryStatus.Position primaryStatus) = Ok p
            ∧ rankedPositions !! alias = Some p)
  ∧ (∀ alias,
       primaries !! alias = None →
       rankedPositions !! alias
       = (λ statuspb, if true then relayPositionOf statuspb
                      else plainPositionOf statuspb) <$> gtidStatusMap !! alias).
Proof.
  apply (FindPositionsOfAllCandidates_result gtidStatusMap primaries
           (canonicalRanges gtidStatusMap primaries)).
  - apply canonicalRanges_of.
  - vm_compute. reflexivity.
Defined.

Lemma FindPositionsOfAllCandidates_mixed_witness :
  ∃ e, FindPositionsOfAllCandidates (canonicalRanges mixedStatusMap ∅) = Err e.
Proof.
  apply (FindPositionsOfAllCandidates_mixed mixedStatusMap ∅).
  - apply canonicalRanges_of.
  - exists (aliasOf 100), (stopped "MySQL56/src1:1-5").
    split; vm_compute; reflexivity.
  - exists (aliasOf 101), (stopped "FilePos/relay.000002:120").
    split; vm_compute; reflexivity.
Defined.

Lemma FindPositionsOfAllCandidates_zero_relay_witness :
  (∃ alias,
     FindPositionsOfAllCandidates (canonicalRanges mixedStatusMap ∅)
     = Err (Errorf vtrpc.Code_UNAVAILABLE msg_no_relay_log_position
              [ArgString alias]))
  ∧ (∃ positionMap,
       FindPositionsOfAllCandidates (canonicalRanges offsetStatusMap ∅)
       = Ok (positionMap, false)
       ∧ positionMap !! aliasOf 101 = plainPositionOf <$> offsetStatusMap !! aliasOf 101).
Proof.
  split.
  - destruct (FindPositionsOfAllCandidates_zero_relay mixedStatusMap ∅
                (canonicalRanges mixedStatusMap ∅) (canonicalRanges_of _ _))
      as [H _].
    destruct H as (alias & _ & _ & _ & Heq).
    + exists (aliasOf 100), (stopped "MySQL56/src1:1-5").
      split; vm_compute; reflexivity.
    + exists (aliasOf 103), (stopped ""). split; vm_compute; reflexivity.
    + by exists alias.
  - destruct (FindPositionsOfAllCandidates_zero_relay offsetStatusMap ∅
                (canonicalRanges offsetStatusMap ∅) (canonicalRanges_of _ _))
      as [_ H].
    destruct H as [_ H].
    + assert (map_Forall
                (λ _ statuspb, IsMysql56GTIDSet (relayPositionOf statuspb) = false)
                offsetStatusMap) as Hall.
      { unfold offsetStatusMap. apply map_Forall_insert_2; [vm_compute; reflexivity|].
        apply map_Forall_singleton. vm_compute. reflexivity. }
      exact Hall.
    + destruct H as (positionMap & Heq & Hplain).
      * intros alias ps Hps. by rewrite lookup_empty in Hps.
      * exists positionMap. split; [done|]. apply Hplain, lookup_empty.
Defined.

End SampleWitnesses.

(** * Further properties of FindPositionsOfAllCandidates *)

Section FindPositionsMore.
Context {R : Replication}.

(** The function, with the loops over [statusMap] read on the map. *)
Lemma FindPositionsOfAllCandidates_unfold statusMap primaryStatusMap o :
  ranges_of statusMap primaryStatusMap o →
  FindPositionsOfAllCandidates o
  = if isGTIDBased (scanRelayLogs (range67 o))
       && FirstErrorRecorder.HasErrors
            (emptyRelayPosErrorRecorder (scanRelayLogs (range67 o)))
    then match emptyRelayPosErrorRecorder (scanRelayLogs (range67 o)) with
         | Some e => Err e
         | None => Ok (∅, false)
         end
    else if isGTIDBased (scanRelayLogs (range67 o))
            && isNonGTIDBased (scanRelayLogs (range67 o))
    then Err (Errorf vtrpc.Code_FAILED_PRECONDITION msg_mixed_relay_logs [])
    else match storePrimaryPositions (range100 o)
                 ((λ statuspb,
                     if isGTIDBased (scanRelayLogs (range67 o))
                     then relayPositionOf statuspb
                     else plainPositionOf statuspb) <$> statusMap) with
         | Err e => Err e
         | Ok positionMap => Ok (positionMap, isGTIDBased (scanRelayLogs (range67 o)))
         end.
Proof.
  intros Hr. unfold FindPositionsOfAllCandidates.
  by rewrite (storePositions_fmap _ _ _ _ Hr).
Qed.

Lemma storePrimaryPositions_Err range positionMap0 e :
  storePrimaryPositions range positionMap0 = Err e →
  ∃ alias primaryStatus err,
    (alias, primaryStatus) ∈ range
    ∧ DecodePosition (PrimaryStatus.Position primaryStatus) = Err err
    ∧ e = Wrapf err msg_decode_primary [ArgString alias; ArgError err].
Proof.
  revert positionMap0. induction range as [|[a ps] l IH]; intros m0; [done|].
  cbn [storePrimaryPositions].
  destruct (DecodePosition (PrimaryStatus.Position ps)) as [p|err] eqn:Hd.
  - intros He. destruct (IH _ He) as (alias & ps' & err & Hin & Hd' & ->).
    exists alias, ps', err. split_and!; [by right|done|done].
  - intros [= <-]. exists a, ps, err. split_and!; [by left|done|done].
Qed.

Lemma storePrimaryPositions_decoded range positionMap0 positionMap :
  storePrimaryPositions range positionMap0 = Ok positionMap →
  ∀ alias primaryStatus, (alias, primaryStatus) ∈ range →
    is_Ok (DecodePosition (PrimaryStatus.Position primaryStatus)) = true.
Proof.
  revert positionMap0. induction range as [|[a ps] l IH]; intros m0 Hok alias ps' Hin.
  - by apply elem_of_nil in Hin.
  - cbn [storePrimaryPositions] in Hok.
    destruct (DecodePosition (PrimaryStatus.Position ps)) as [p|err] eqn:Hd; [|done].
    apply elem_of_cons in Hin as [[= -> ->]|Hin]; [by rewrite Hd|].
    by apply (IH _ Hok alias ps').
Qed.

(** The loop over the primaries gives the same map in every visit order. *)
Lemma storePrimaryPositions_order primaryStatusMap range1 range2 positionMap0 positionMap :
  range1 ≡ₚ map_to_list primaryStatusMap →
  range2 ≡ₚ map_to_list primaryStatusMap →
  storePrimaryPositions range1 positionMap0 = Ok positionMap →
  storePrimaryPositions range2 positionMap0 = Ok positionMap.
Proof.
  intros H1 H2 Hok.
  destruct (storePrimaryPositions_total range2 positionMap0) as [pm2 Hpm2].
  { intros alias ps Hin.
    apply (storePrimaryPositions_decoded _ _ _ Hok alias ps). by rewrite H1, <- H2. }
  rewrite Hpm2. f_equal. apply map_eq. intros k.
  pose proof (storePrimaryPositions_Ok _ _ _ (range_NoDup _ _ H1) Hok k) as Ha.
  pose proof (storePrimaryPositions_Ok _ _ _ (range_NoDup _ _ H2) Hpm2 k) as Hb.
  rewrite (range_to_map _ _ H1) in Ha. rewrite (range_to_map _ _ H2) in Hb.
  destruct (primaryStatusMap !! k) as [ps|].
  - destruct Ha as (p & Hd & ->). destruct Hb as (p' & Hd' & ->). congruence.
  - congruence.
Qed.

(** The flags computed by the scanning loop do not depend on the visit
    order. *)
Lemma scanRelayLogs_order statusMap primaryStatusMap o1 o2 :
  ranges_of statusMap primaryStatusMap o1 →
  ranges_of statusMap primaryStatusMap o2 →
  isGTIDBased (scanRelayLogs (range67 o1)) = isGTIDBased (scanRelayLogs (range67 o2))
  ∧ isNonGTIDBased (scanRelayLogs (range67 o1))
    = isNonGTIDBased (scanRelayLogs (range67 o2))
  ∧ FirstErrorRecorder.HasErrors (emptyRelayPosErrorRecorder (scanRelayLogs (range67 o1)))
    = FirstErrorRecorder.HasErrors
        (emptyRelayPosErrorRecorder (scanRelayLogs (range67 o2))).
Proof.
  intros H1 H2.
  pose proof (scanRelayLogs_spec _ _ _ H1) as (Hg1 & Hn1 & Hz1).
  pose proof (scanRelayLogs_spec _ _ _ H2) as (Hg2 & Hn2 & Hz2).
  split_and!; apply eq_true_iff_eq; unfold is_true.
  - by rewrite Hg1, Hg2.
  - by rewrite Hn1, Hn2.
  - by rewrite Hz1, Hz2.
Qed.

(** X1. Why the call can fail.  An error returned by
    [FindPositionsOfAllCandidates] is one of three: the UNAVAILABLE error
    naming a node of [statusMap] whose relay-log position is zero, in a map
    that also holds a node with a MySQL 5.6 GTID relay-log position; the
    FAILED_PRECONDITION error of a map that mixes both kinds of relay-log
    position; or the wrapped decoding error of a node of [primaryStatusMap]
    whose executed position does not decode. *)
Theorem FindPositionsOfAllCandidates_errors statusMap primaryStatusMap o e :
  ranges_of statusMap primaryStatusMap o →
  FindPositionsOfAllCandidates o = Err e →
  (∃ alias statuspb,
     statusMap !! alias = Some statuspb
     ∧ IsZero (relayPositionOf statuspb) = true
     ∧ e = Errorf vtrpc.Code_UNAVAILABLE msg_no_relay_log_position [ArgString alias]
     ∧ ∃ alias' statuspb',
         statusMap !! alias' = Some statuspb'
         ∧ IsMysql56GTIDSet (relayPositionOf statuspb') = true)
  ∨ (e = Errorf vtrpc.Code_FAILED_PRECONDITION msg_mixed_relay_logs []
     ∧ (∃ alias statuspb, statusMap !! alias = Some statuspb
          ∧ IsMysql56GTIDSet (relayPositionOf statuspb) = true)
     ∧ (∃ alias statuspb, statusMap !! alias = Some statuspb
          ∧ IsMysql56GTIDSet (relayPositionOf statuspb) = false))
  ∨ (∃ alias primaryStatus err,
       primaryStatusMap !! alias = Some primaryStatus
       ∧ DecodePosition (PrimaryStatus.Position primaryStatus) = Err err
       ∧ e = Wrapf err msg_decode_primary [ArgString alias; ArgError err]).
Proof.
  intros Hr He. pose proof (scanRelayLogs_spec _ _ _ Hr) as (Hg & Hn & Hz).
  rewrite (FindPositionsOfAllCandidates_unfold _ _ _ Hr) in He.
  assert (∀ e', storePrimaryPositions (range100 o)
            ((λ statuspb,
                if isGTIDBased (scanRelayLogs (range67 o))
                then relayPositionOf statuspb
                else plainPositionOf statuspb) <$> statusMap) = Err e' →
          ∃ alias primaryStatus err,
            primaryStatusMap !! alias = Some primaryStatus
            ∧ DecodePosition (PrimaryStatus.Position primaryStatus) = Err err
            ∧ e' = Wrapf err msg_decode_primary [ArgString alias; ArgError err])
    as Hdec.
  { intros e' He'. apply storePrimaryPositions_Err in He'
      as (alias & ps & err & Hin & Hd & ->).
    exists alias, ps, err. split_and!; [|done|done].
    destruct Hr as (_ & _ & _ & H100). by apply (range_elem_of _ _ _ _ H100). }
  destruct (isGTIDBased (scanRelayLogs (range67 o))) eqn:Hb1;
    destruct (FirstErrorRecorder.HasErrors _) eqn:Hb3; cbn [andb] in He.
  - left. apply HasErrors_Some in Hb3 as [e0 Hrec]. rewrite Hrec in He.
    injection He as ->. unfold scanRelayLogs in Hrec.
    apply scanRelayLogs_error in Hrec as [Hrec|(alias & st & Hin & Hzero & ->)];
      [done|].
    destruct Hr as (H54 & H67 & _ & _).
    apply (range_elem_of _ _ _ _ H67) in Hin.
    rewrite (buildReplicationStatusMap_fmap _ _ H54) in Hin.
    apply lookup_fmap_Some in Hin as (statuspb & <- & Hst).
    exists alias, statuspb. split_and!; [done|done|done|]. by apply Hg.
  - destruct (isNonGTIDBased (scanRelayLogs (range67 o))) eqn:Hb2.
    + right. left. injection He as <-. split_and!; [done|by apply Hg|by apply Hn].
    + right. right. apply Hdec.
      by destruct (storePrimaryPositions _ _) eqn:Hs; [|injection He as ->].
  - right. right. apply Hdec.
    by destruct (storePrimaryPositions _ _) eqn:Hs; [|injection He as ->].
  - right. right. apply Hdec.
    by destruct (storePrimaryPositions _ _) eqn:Hs; [|injection He as ->].
Qed.

(** X2. When the call succeeds.  [FindPositionsOfAllCandidates] returns
    without error exactly when: no node with a MySQL 5.6 GTID relay-log
    position coexists with a node whose relay-log position is zero or is
    not a MySQL 5.6 GTID set, and the executed position of every node of
    [primaryStatusMap] decodes. *)
Theorem FindPositionsOfAllCandidates_succeeds_iff statusMap primaryStatusMap o :
  ranges_of statusMap primaryStatusMap o →
  is_Ok (FindPositionsOfAllCandidates o) = true
  ↔ ((∃ alias statuspb, statusMap !! alias = Some statuspb
        ∧ IsMysql56GTIDSet (relayPositionOf statuspb) = true) →
     ∀ alias statuspb, statusMap !! alias = Some statuspb →
       IsZero (relayPositionOf statuspb) = false
       ∧ IsMysql56GTIDSet (relayPositionOf statuspb) = true)
    ∧ (∀ alias primaryStatus, primaryStatusMap !! alias = Some primaryStatus →
         is_Ok (DecodePosition (PrimaryStatus.Position primaryStatus)) = true).
Proof.
  intros Hr. pose proof (scanRelayLogs_spec _ _ _ Hr) as (Hg & Hn & Hz).
  rewrite (FindPositionsOfAllCandidates_unfold _ _ _ Hr).
  destruct Hr as (_ & _ & _ & H100).
  assert (is_Ok (storePrimaryPositions (range100 o)
            ((λ statuspb,
                if isGTIDBased (scanRelayLogs (range67 o))
                then relayPositionOf statuspb
                else plainPositionOf statuspb) <$> statusMap)) = true
          ↔ ∀ alias primaryStatus, primaryStatusMap !! alias = Some primaryStatus →
              is_Ok (DecodePosition (PrimaryStatus.Position primaryStatus)) = true)
    as Hstore.
  { split.
    - destruct (storePrimaryPositions _ _) as [pm|] eqn:Hs; [|done].
      intros _ alias ps Hps.
      apply (storePrimaryPositions_decoded _ _ _ Hs alias ps).
      by apply (range_elem_of _ _ _ _ H100).
    - intros Hall.
      destruct (storePrimaryPositions_total (range100 o)
                  ((λ statuspb,
                      if isGTIDBased (scanRelayLogs (range67 o))
                      then relayPositionOf statuspb
                      else plainPositionOf statuspb) <$> statusMap)) as [pm ->];
        [|done].
      intros alias ps Hin. apply (Hall alias).
      by apply (range_elem_of _ _ _ _ H100). }
  destruct (isGTIDBased (scanRelayLogs (range67 o))) eqn:Hb1;
    destruct (FirstErrorRecorder.HasErrors _) eqn:Hb3; cbn [andb].
  - apply HasErrors_Some in Hb3 as Hrec. destruct Hrec as [e0 ->]. cbn [is_Ok].
    split; [done|]. intros [Hno _].
    destruct (proj1 Hz eq_refl) as (alias & st & Hst & Hzero).
    destruct (Hno (proj1 Hg eq_refl) alias st Hst) as [Hnz _]. congruence.
  - destruct (isNonGTIDBased (scanRelayLogs (range67 o))) eqn:Hb2.
    + cbn [is_Ok]. split; [done|]. intros [Hno _].
      destruct (proj1 Hn eq_refl) as (alias & st & Hst & Hnon).
      destruct (Hno (proj1 Hg eq_refl) alias st Hst) as [_ Hyes]. congruence.
    + assert (is_Ok (match storePrimaryPositions (range100 o)
                             ((λ statuspb, relayPositionOf statuspb) <$> statusMap) with
                     | Err e => Err e
                     | Ok positionMap => Ok (positionMap, true)
                     end)
              = is_Ok (storePrimaryPositions (range100 o)
                         ((λ statuspb, relayPositionOf statuspb) <$> statusMap)))
        as -> by by destruct (storePrimaryPositions _ _).
      rewrite Hstore. split; [|by intros [_ ?]]. intros Hall. split; [|done].
      intros _ alias st Hst. split.
      * destruct (IsZero (relayPositionOf st)) eqn:Hzero; [|done].
        assert (false = true) as Habs; [|done].
        apply Hz. by exists alias, st.
      * destruct (IsMysql56GTIDSet (relayPositionOf st)) eqn:Hm; [done|].
        assert (false = true) as Habs; [|done].
        apply Hn. by exists alias, st.
  - assert (is_Ok (match storePrimaryPositions (range100 o)
                           ((λ statuspb, plainPositionOf statuspb) <$> statusMap) with
                   | Err e => Err e
                   | Ok positionMap => Ok (positionMap, false)
                   end)
            = is_Ok (storePrimaryPositions (range100 o)
                       ((λ statuspb, plainPositionOf statuspb) <$> statusMap)))
      as -> by by destruct (storePrimaryPositions _ _).
    rewrite Hstore. split; [|by intros [_ ?]]. intros Hall. split; [|done].
    intros Hgtid. apply Hg in Hgtid. done.
  - assert (is_Ok (match storePrimaryPositions (range100 o)
                           ((λ statuspb, plainPositionOf statuspb) <$> statusMap) with
                   | Err e => Err e
                   | Ok positionMap => Ok (positionMap, false)
                   end)
            = is_Ok (storePrimaryPositions (range100 o)
                       ((λ statuspb, plainPositionOf statuspb) <$> statusMap)))
      as -> by by destruct (storePrimaryPositions _ _).
    rewrite Hstore. split; [|by intros [_ ?]]. intros Hall. split; [|done].
    intros Hgtid. apply Hg in Hgtid. done.
Qed.

End FindPositionsMore.

Section FindPositionsOrder.
Context {R : Replication}.

(** X3. Go visits the entries of a map in an unspecified order; the result
    of a successful call does not depend on it.  If the call succeeds for
    one choice of visit orders of its four loops, it succeeds with the same
    position map and the same flag for every other choice. *)
Theorem FindPositionsOfAllCandidates_order_independent
    statusMap primaryStatusMap o1 o2 r :
  ranges_of statusMap primaryStatusMap o1 →
  ranges_of statusMap primaryStatusMap o2 →
  FindPositionsOfAllCandidates o1 = Ok r →
  FindPositionsOfAllCandidates o2 = Ok r.
Proof.
  intros H1 H2.
  rewrite (FindPositionsOfAllCandidates_unfold _ _ _ H1).
  rewrite (FindPositionsOfAllCandidates_unfold _ _ _ H2).
  destruct (scanRelayLogs_order _ _ _ _ H1 H2) as (<- & <- & <-).
  destruct H1 as (_ & _ & _ & H100), H2 as (_ & _ & _ & H100').
  destruct (isGTIDBased (scanRelayLogs (range67 o1))) eqn:Hb1;
    destruct (FirstErrorRecorder.HasErrors
                (emptyRelayPosErrorRecorder (scanRelayLogs (range67 o1)))) eqn:Hb3;
    destruct (isNonGTIDBased (scanRelayLogs (range67 o1))) eqn:Hb2;
    cbn [andb];
    try (apply HasErrors_Some in Hb3 as [e0 ->]);
    try (intros Habs; discriminate Habs).
  all: destruct (storePrimaryPositions (range100 o1) _) as [pm|] eqn:Hs;
    [|intros Habs; discriminate Habs].
  all: intros [= <-].
  all: by rewrite (storePrimaryPositions_order _ _ _ _ _ H100 H100' Hs).
Qed.

(** X4. The nodes ranked by a successful call are exactly the nodes of
    [statusMap] together with the nodes of [primaryStatusMap]. *)
Theorem FindPositionsOfAllCandidates_dom
    statusMap primaryStatusMap o positionMap gtid :
  ranges_of statusMap primaryStatusMap o →
  FindPositionsOfAllCandidates o = Ok (positionMap, gtid) →
  dom positionMap = dom statusMap ∪ dom primaryStatusMap.
Proof.
  intros Hr. rewrite (FindPositionsOfAllCandidates_unfold _ _ _ Hr).
  destruct Hr as (_ & _ & _ & H100).
  assert (∀ (b : bool) f,
            match storePrimaryPositions (range100 o) (f <$> statusMap) with
            | Err e => Err e
            | Ok pm => Ok (pm, b)
            end = Ok (positionMap, gtid) →
            dom positionMap = dom statusMap ∪ dom primaryStatusMap) as Hstore.
  { intros b f.
    destruct (storePrimaryPositions (range100 o) _) as [pm|] eqn:Hs;
      [|intros Habs; discriminate Habs].
    intros [= <- <-]. apply set_eq. intros k.
    rewrite elem_of_union, !elem_of_dom.
    pose proof (storePrimaryPositions_Ok _ _ _ (range_NoDup _ _ H100) Hs k) as Hk.
    rewrite (range_to_map _ _ H100) in Hk.
    destruct (primaryStatusMap !! k) as [ps|] eqn:Hps.
    - destruct Hk as (p & _ & ->). split; [by right|by eexists].
    - rewrite Hk, lookup_fmap, fmap_is_Some. split; [by left|].
      by intros [?|[? ?]]. }
  destruct (isGTIDBased (scanRelayLogs (range67 o))) eqn:Hb1;
    destruct (FirstErrorRecorder.HasErrors
                (emptyRelayPosErrorRecorder (scanRelayLogs (range67 o)))) eqn:Hb3;
    destruct (isNonGTIDBased (scanRelayLogs (range67 o))) eqn:Hb2;
    cbn [andb];
    try (apply HasErrors_Some in Hb3 as [e0 ->]);
    try (intros Habs; discriminate Habs);
    apply Hstore.
Qed.


(** X5. A true flag vouches for the whole status map: when the call
    succeeds and reports a GTID-based cluster, the relay-log position of
    every node of [statusMap] is a MySQL 5.6 GTID set and is not zero. *)
Theorem FindPositionsOfAllCandidates_gtid_flag
    statusMap primaryStatusMap o positionMap :
  ranges_of statusMap primaryStatusMap o →
  FindPositionsOfAllCandidates o = Ok (positionMap, true) →
  ∀ alias statuspb, statusMap !! alias = Some statuspb →
    IsMysql56GTIDSet (relayPositionOf statuspb) = true
    ∧ IsZero (relayPositionOf statuspb) = false.
Proof.
  intros Hr. pose proof (scanRelayLogs_spec _ _ _ Hr) as (Hg & Hn & Hz).
  rewrite (FindPositionsOfAllCandidates_unfold _ _ _ Hr).
  destruct (isGTIDBased (scanRelayLogs (range67 o))) eqn:Hb1;
    destruct (FirstErrorRecorder.HasErrors _) eqn:Hb3; cbn [andb].
  - apply HasErrors_Some in Hb3 as [e ->]. done.
  - destruct (isNonGTIDBased (scanRelayLogs (range67 o))) eqn:Hb2; [done|].
    intros _ alias st Hst. split.
    + destruct (IsMysql56GTIDSet (relayPositionOf st)) eqn:Hm; [done|].
      assert (false = true) as Habs; [|done]. apply Hn. by exists alias, st.
    + destruct (IsZero (relayPositionOf st)) eqn:Hzero; [|done].
      assert (false = true) as Habs; [|done]. apply Hz. by exists alias, st.
  - by destruct (storePrimaryPositions _ _).
  - by destruct (storePrimaryPositions _ _).
Qed.

End FindPositionsOrder.

Section FindPositionsMoreWitnesses.
Import Sample.

Lemma reversedRanges_of sm pm : ranges_of sm pm (reversedRanges sm pm).
Proof. repeat split; apply reverse_Permutation. Qed.

Lemma FindPositionsOfAllCandidates_errors_witness :
  (∃ alias statuspb,
     mixedStatusMap !! alias = Some statuspb
     ∧ IsZero (relayPositionOf statuspb) = true
     ∧ Errorf vtrpc.Code_UNAVAILABLE msg_no_relay_log_position
         [ArgString (aliasOf 103)]
       = Errorf vtrpc.Code_UNAVAILABLE msg_no_relay_log_position [ArgString alias]
     ∧ ∃ alias' statuspb',
         mixedStatusMap !! alias' = Some statuspb'
         ∧ IsMysql56GTIDSet (relayPositionOf statuspb') = true)
  ∨ (Errorf vtrpc.Code_UNAVAILABLE msg_no_relay_log_position
       [ArgString (aliasOf 103)]
     = Errorf vtrpc.Code_FAILED_PRECONDITION msg_mixed_relay_logs []
     ∧ (∃ alias statuspb, mixedStatusMap !! alias = Some statuspb
          ∧ IsMysql56GTIDSet (relayPositionOf statuspb) = true)
     ∧ (∃ alias statuspb, mixedStatusMap !! alias = Some statuspb
          ∧ IsMysql56GTIDSet (relayPositionOf statuspb) = false))
  ∨ (∃ alias primaryStatus err,
       (∅ : gmap string PrimaryStatus.t) !! alias = Some primaryStatus
       ∧ DecodePosition (PrimaryStatus.Position primaryStatus) = Err err
       ∧ Errorf vtrpc.Code_UNAVAILABLE msg_no_relay_log_position
           [ArgString (aliasOf 103)]
         = Wrapf err msg_decode_primary [ArgString alias; ArgError err]).
Proof.
  apply (FindPositionsOfAllCandidates_errors mixedStatusMap ∅
           (canonicalRanges mixedStatusMap ∅)).
  - apply canonicalRanges_of.
  - vm_compute. reflexivity.
Defined.

Lemma FindPositionsOfAllCandidates_succeeds_iff_witness :
  is_Ok (FindPositionsOfAllCandidates (canonicalRanges gtidStatusMap badPrimaries))
  = true
  ↔ ((∃ alias statuspb, gtidStatusMap !! alias = Some statuspb
        ∧ IsMysql56GTIDSet (relayPositionOf statuspb) = true) →
     ∀ alias statuspb, gtidStatusMap !! alias = Some statuspb →
       IsZero (relayPositionOf statuspb) = false
       ∧ IsMysql56GTIDSet (relayPositionOf statuspb) = true)
    ∧ (∀ alias primaryStatus, badPrimaries !! alias = Some primaryStatus →
         is_Ok (DecodePosition (PrimaryStatus.Position primaryStatus)) = true).
Proof.
  apply (FindPositionsOfAllCandidates_succeeds_iff gtidStatusMap badPrimaries).
  apply canonicalRanges_of.
Defined.

Lemma FindPositionsOfAllCandidates_order_independent_witness :
  FindPositionsOfAllCandidates (reversedRanges gtidStatusMap primaries)
  = Ok (rankedPositions, true).
Proof.
  apply (FindPositionsOfAllCandidates_order_independent gtidStatusMap primaries
           (canonicalRanges gtidStatusMap primaries)).
  - apply canonicalRanges_of.
  - apply reversedRanges_of.
  - vm_compute. reflexivity.
Defined.

Lemma FindPositionsOfAllCandidates_dom_witness :
  dom rankedPositions = dom gtidStatusMap ∪ dom primaries.
Proof.
  apply (FindPositionsOfAllCandidates_dom gtidStatusMap primaries
           (canonicalRanges gtidStatusMap primaries) rankedPositions true).
  - apply canonicalRanges_of.
  - vm_compute. reflexivity.
Defined.

Lemma FindPositionsOfAllCandidates_gtid_flag_witness :
  IsMysql56GTIDSet (relayPositionOf (stopped "MySQL56/src1:1-5")) = true
  ∧ IsZero (relayPositionOf (stopped "MySQL56/src1:1-5")) = false.
Proof.
  refine (FindPositionsOfAllCandidates_gtid_flag gtidStatusMap primaries
            (canonicalRanges gtidStatusMap primaries) rankedPositions _ _
            (aliasOf 100) _ _).
  - apply canonicalRanges_of.
  - vm_compute. reflexivity.
  - vm_compute. reflexivity.
Defined.

End FindPositionsMoreWitnesses.

(** * Further properties of fillStatus and of the snapshot *)

Section SnapshotContents.
Context {tmc : tmclient.TabletManagerClient} {ts : Topology}
        {dp : DurabilityPolicies} {se : SQLErrors}.

(** The three maps after one goroutine, read key by key. *)
Lemma fillStatus_lookup gs alias tabletInfo mustWaitFor res k :
  gs !! alias = Some (tabletInfo, mustWaitFor) →
  let res' := (fillStatus alias tabletInfo mustWaitFor res).1.1 in
  statusMap res' !! k
  = (if decide (k = alias)
     then match stoppedStatus gs alias with
          | Some st => Some st
          | None => statusMap res !! k
          end
     else statusMap res !! k)
  ∧ primaryStatusMap res' !! k
    = (if decide (k = alias)
       then match demotedStatus gs alias with
            | Some ps => Some ps
            | None => primaryStatusMap res !! k
            end
       else primaryStatusMap res !! k)
  ∧ tabletsBackupState res' !! k
    = (if decide (k = alias)
       then match stoppedStatus gs alias with
            | Some st => Some (isTakingBackup st)
            | None => tabletsBackupState res !! k
            end
       else tabletsBackupState res !! k).
Proof.
  intros Hg. unfold stoppedStatus, demotedStatus. rewrite Hg.
  unfold fillStatus, call, bind, ret, isTakingBackup.
  destruct (tmclient.StopReplicationAndGetStatus (TabletInfo.Tablet tabletInfo) _)
    as [st|err];
    [|destruct (isNotReplicaError err);
      [destruct (tmclient.DemotePrimary (TabletInfo.Tablet tabletInfo)) as [ps|derr]|]];
    cbn [fst snd statusMap primaryStatusMap tabletsBackupState];
    destruct (decide (k = alias)) as [->|Hne];
    rewrite ?lookup_insert_eq, ?lookup_insert_ne by done; done.
Qed.

Lemma runGoroutines_lookup gs order res k :
  let res' := (runGoroutines gs order res).1 in
  statusMap res' !! k
  = (if decide (k ∈ order)
     then match stoppedStatus gs k with
          | Some st => Some st
          | None => statusMap res !! k
          end
     else statusMap res !! k)
  ∧ primaryStatusMap res' !! k
    = (if decide (k ∈ order)
       then match demotedStatus gs k with
            | Some ps => Some ps
            | None => primaryStatusMap res !! k
            end
       else primaryStatusMap res !! k)
  ∧ tabletsBackupState res' !! k
    = (if decide (k ∈ order)
       then match stoppedStatus gs k with
            | Some st => Some (isTakingBackup st)
            | None => tabletsBackupState res !! k
            end
       else tabletsBackupState res !! k).
Proof.
  revert res. induction order as [|a order IH]; intros res.
  - cbn. rewrite !decide_False by apply not_elem_of_nil. done.
  - assert (k ∈ a :: order ↔ k = a ∨ k ∈ order) as Hcons by apply elem_of_cons.
    destruct (gs !! a) as [[ti f]|] eqn:Hg.
    + rewrite (runGoroutines_step _ _ _ _ _ _ Hg). cbn [fst].
      destruct (IH (fillStatus a ti f res).1.1) as (-> & -> & ->).
      destruct (fillStatus_lookup gs a ti f res k Hg) as (-> & -> & ->).
      destruct (decide (k ∈ a :: order)) as [Hin|Hin];
        destruct (decide (k = a)) as [->|Hne];
        destruct (decide (_ ∈ order)) as [Hin'|Hin'];
        try tauto;
        destruct (stoppedStatus gs _), (demotedStatus gs _); done.
    + rewrite (runGoroutines_skip _ _ _ _ Hg). cbv zeta.
      destruct (IH res) as (-> & -> & ->).
      destruct (decide (k ∈ a :: order)) as [Hin|Hin];
        destruct (decide (k ∈ order)) as [Hin'|Hin'];
        try tauto; try done.
      assert (k = a) as -> by tauto.
      unfold stoppedStatus, demotedStatus. by rewrite Hg.
Qed.

(** The snapshot of a returned outcome is the one the goroutines built. *)
Lemma returned_snapshot tabletMap ig wf (durability : Durabler) wfa x out res :
  stopReplicationAndBuildStatusMaps tabletMap ig wf durability wfa x = Some out →
  snapshot out = Some res →
  res = (builtSnapshot ig wf x).1.
Proof.
  intros Hout Hres.
  destruct (waitOutcome tabletMap ig wf wfa x) as [w|] eqn:Hw.
  - rewrite (stopReplicationAndBuildStatusMaps_unfold _ _ _ durability _ _ _ Hw)
      in Hout.
    destruct (_ <=? _)%nat; [|destruct (negb _)];
      injection Hout as <-; cbn [snapshot] in Hres; congruence.
  - unfold stopReplicationAndBuildStatusMaps in Hout. by rewrite Hw in Hout.
Qed.

(** X6. What [statusMap] holds.  In a returned snapshot, [statusMap] maps
    an alias to a status exactly when the goroutine of that alias has run
    and its stop-replication call, issued on the tablet stored under that
    alias in the tablet map, has succeeded with that status. *)
Theorem snapshot_statusMap_contents
    tabletMap ig wf (durability : Durabler) wfa x out res alias st :
  execution_of tabletMap ig wf wfa x →
  stopReplicationAndBuildStatusMaps tabletMap ig wf durability wfa x = Some out →
  snapshot out = Some res →
  statusMap res !! alias = Some st
  ↔ alias ∈ updated x
    ∧ ∃ tabletInfo,
        tabletMap !! alias = Some tabletInfo
        ∧ tmclient.StopReplicationAndGetStatus (TabletInfo.Tablet tabletInfo)
            StopReplicationMode_IOTHREADONLY = Ok st.
Proof.
  intros (Hp & _ & Hupd & _) Hout Hres.
  rewrite (returned_snapshot _ _ _ _ _ _ _ _ Hout Hres). unfold builtSnapshot.
  destruct (runGoroutines_lookup (goroutines (startedGoroutines ig wf x))
              (updated x) emptySnapshot alias) as (-> & _ & _).
  cbn [emptySnapshot statusMap]. rewrite lookup_empty.
  destruct (decide (alias ∈ updated x)) as [Hin|Hin]; [|by split; [|intros [? _]]].
  destruct (Hupd alias Hin) as [[ti f] Hg].
  pose proof (goroutine_started _ _ _ _ _ _ _ Hp Hg) as (Hti & _ & _).
  unfold stoppedStatus. unfold startedGoroutines in *. rewrite Hg.
  destruct (tmclient.StopReplicationAndGetStatus _ _) as [st'|err] eqn:Hs.
  - split.
    + intros [= ->]. split; [done|]. by exists ti.
    + intros (_ & ti' & Hti' & Hs'). congruence.
  - split; [done|]. intros (_ & ti' & Hti' & Hs'). congruence.
Qed.

(** X7. What [primaryStatusMap] holds.  In a returned snapshot,
    [primaryStatusMap] maps an alias to a primary status exactly when the
    goroutine of that alias has run, its stop-replication call has failed
    with the "not a replica" SQL error, and the demotion of the tablet has
    succeeded with that primary status. *)
Theorem snapshot_primaryStatusMap_contents
    tabletMap ig wf (durability : Durabler) wfa x out res alias ps :
  execution_of tabletMap ig wf wfa x →
  stopReplicationAndBuildStatusMaps tabletMap ig wf durability wfa x = Some out →
  snapshot out = Some res →
  primaryStatusMap res !! alias = Some ps
  ↔ alias ∈ updated x
    ∧ ∃ tabletInfo err,
        tabletMap !! alias = Some tabletInfo
        ∧ tmclient.StopReplicationAndGetStatus (TabletInfo.Tablet tabletInfo)
            StopReplicationMode_IOTHREADONLY = Err err
        ∧ isNotReplicaError err = true
        ∧ tmclient.DemotePrimary (TabletInfo.Tablet tabletInfo) = Ok ps.
Proof.
  intros (Hp & _ & Hupd & _) Hout Hres.
  rewrite (returned_snapshot _ _ _ _ _ _ _ _ Hout Hres). unfold builtSnapshot.
  destruct (runGoroutines_lookup (goroutines (startedGoroutines ig wf x))
              (updated x) emptySnapshot alias) as (_ & -> & _).
  cbn [emptySnapshot primaryStatusMap]. rewrite lookup_empty.
  destruct (decide (alias ∈ updated x)) as [Hin|Hin]; [|by split; [|intros [? _]]].
  destruct (Hupd alias Hin) as [[ti f] Hg].
  pose proof (goroutine_started _ _ _ _ _ _ _ Hp Hg) as (Hti & _ & _).
  unfold demotedStatus. unfold startedGoroutines in *. rewrite Hg.
  destruct (tmclient.StopReplicationAndGetStatus _ _) as [st'|err] eqn:Hs.
  - split; [done|]. intros (_ & ti' & err' & Hti' & Hs' & _). congruence.
  - destruct (isNotReplicaError err) eqn:Hnot.
    + destruct (tmclient.DemotePrimary _) as [ps'|derr] eqn:Hd.
      * split.
        -- intros [= ->]. split; [done|]. by exists ti, err.
        -- intros (_ & ti' & err' & Hti' & Hs' & _ & Hd'). congruence.
      * split; [done|]. intros (_ & ti' & err' & Hti' & Hs' & _ & Hd'). congruence.
    + split; [done|]. intros (_ & ti' & err' & Hti' & Hs' & Hnot' & _). congruence.
Qed.

(** X8. The backup flags.  In a returned snapshot, [tabletsBackupState] has
    exactly the keys of [statusMap], and the flag of a node is the
    [BackupRunning] field of the [After] status, or of the [Before] status
    when [After] is nil, or false when both are nil. *)
Theorem snapshot_tabletsBackupState
    tabletMap ig wf (durability : Durabler) wfa x out res alias :
  stopReplicationAndBuildStatusMaps tabletMap ig wf durability wfa x = Some out →
  snapshot out = Some res →
  tabletsBackupState res !! alias = isTakingBackup <$> statusMap res !! alias.
Proof.
  intros Hout Hres.
  rewrite (returned_snapshot _ _ _ _ _ _ _ _ Hout Hres). unfold builtSnapshot.
  destruct (runGoroutines_lookup (goroutines (startedGoroutines ig wf x))
              (updated x) emptySnapshot alias) as (-> & _ & ->).
  cbn [emptySnapshot statusMap tabletsBackupState]. rewrite !lookup_empty.
  destruct (decide (alias ∈ updated x)); [|done].
  by destruct (stoppedStatus _ alias).
Qed.

End SnapshotContents.

Section SnapshotReachable.
Context {tmc : tmclient.TabletManagerClient} {ts : Topology}
        {dp : DurabilityPolicies} {se : SQLErrors}.

Lemma fillStatus_reachable gs alias tabletInfo mustWaitFor res :
  gs !! alias = Some (tabletInfo, mustWaitFor) →
  reachableTablets (fillStatus alias tabletInfo mustWaitFor res).1.1
  = reachableTablets res
    ++ match stoppedStatus gs alias, demotedStatus gs alias with
       | None, None => []
       | _, _ => [TabletInfo.Tablet tabletInfo]
       end.
Proof.
  intros Hg. unfold stoppedStatus, demotedStatus. rewrite Hg.
  unfold fillStatus, call, bind, ret.
  destruct (tmclient.StopReplicationAndGetStatus (TabletInfo.Tablet tabletInfo) _)
    as [st|err];
    [|destruct (isNotReplicaError err);
      [destruct (tmclient.DemotePrimary (TabletInfo.Tablet tabletInfo)) as [ps|derr]|]];
    cbn [fst snd reachableTablets]; by rewrite ?app_nil_r.
Qed.

Lemma runGoroutines_reachable gs order res t :
  t ∈ reachableTablets (runGoroutines gs order res).1
  ↔ t ∈ reachableTablets res
    ∨ ∃ alias tabletInfo mustWaitFor,
        alias ∈ order
        ∧ gs !! alias = Some (tabletInfo, mustWaitFor)
        ∧ t = TabletInfo.Tablet tabletInfo
        ∧ (is_Some (stoppedStatus gs alias) ∨ is_Some (demotedStatus gs alias)).
Proof.
  revert res. induction order as [|a order IH]; intros res.
  - cbn. split; [by left|]. intros [?|(? & ? & ? & Hin & _)]; [done|].
    by apply elem_of_nil in Hin.
  - destruct (gs !! a) as [[ti f]|] eqn:Hg.
    + rewrite (runGoroutines_step _ _ _ _ _ _ Hg). cbn [fst].
      rewrite IH, (fillStatus_reachable gs a ti f res Hg), elem_of_app.
      split.
      * intros [[Hres|Hnew]|(alias & ti' & f' & Hin & Hg' & -> & Hs)].
        -- by left.
        -- right. exists a, ti, f.
           destruct (stoppedStatus gs a) eqn:Hst, (demotedStatus gs a) eqn:Hde;
             try (apply list_elem_of_singleton in Hnew as ->);
             try (by apply elem_of_nil in Hnew);
             (split_and!; [by left|done|done|]); [left|left|right]; by eexists.
        -- right. exists alias, ti', f'. split_and!; [by right|done|done|done].
      * intros [Hres|(alias & ti' & f' & Hin & Hg' & -> & Hs)]; [by left; left|].
        apply elem_of_cons in Hin as [->|Hin].
        -- left. right. rewrite Hg in Hg'. injection Hg' as <- <-.
           destruct Hs as [[? Hs]|[? Hs]]; rewrite Hs.
           ++ apply list_elem_of_singleton. done.
           ++ destruct (stoppedStatus gs a); by apply list_elem_of_singleton.
        -- right. by exists alias, ti', f'.
    + rewrite (runGoroutines_skip _ _ _ _ Hg), IH. split.
      * intros [?|(alias & ti' & f' & Hin & ?)]; [by left|].
        right. exists alias, ti', f'. split; [by right|done].
      * intros [?|(alias & ti' & f' & Hin & Hg' & Hrest)]; [by left|].
        apply elem_of_cons in Hin as [->|Hin]; [congruence|].
        right. by exists alias, ti', f'.
Qed.

(** X9. What [reachableTablets] holds.  In a returned snapshot, a tablet
    is in [reachableTablets] exactly when it is the tablet stored in the
    tablet map under an alias that is a key of [statusMap] or of
    [primaryStatusMap]: no tablet is listed as reachable without an entry
    in one of the two maps. *)
Theorem snapshot_reachableTablets_contents
    tabletMap ig wf (durability : Durabler) wfa x out res t :
  execution_of tabletMap ig wf wfa x →
  stopReplicationAndBuildStatusMaps tabletMap ig wf durability wfa x = Some out →
  snapshot out = Some res →
  t ∈ reachableTablets res
  ↔ ∃ alias tabletInfo,
      tabletMap !! alias = Some tabletInfo
      ∧ t = TabletInfo.Tablet tabletInfo
      ∧ (alias ∈ dom (statusMap res) ∨ alias ∈ dom (primaryStatusMap res)).
Proof.
  intros (Hp & _ & Hupd & _) Hout Hres.
  rewrite (returned_snapshot _ _ _ _ _ _ _ _ Hout Hres). unfold builtSnapshot.
  rewrite runGoroutines_reachable. cbn [emptySnapshot reachableTablets].
  assert (∀ alias,
            (alias ∈ updated x
             ∧ (is_Some (stoppedStatus (goroutines (startedGoroutines ig wf x)) alias)
                ∨ is_Some (demotedStatus (goroutines (startedGoroutines ig wf x)) alias)))
            ↔ (alias ∈ dom (statusMap
                              (runGoroutines (goroutines (startedGoroutines ig wf x))
                                 (updated x) emptySnapshot).1)
               ∨ alias ∈ dom (primaryStatusMap
                                (runGoroutines (goroutines (startedGoroutines ig wf x))
                                   (updated x) emptySnapshot).1))) as Hkeys.
  { intros alias. rewrite !elem_of_dom.
    destruct (runGoroutines_lookup (goroutines (startedGoroutines ig wf x))
                (updated x) emptySnapshot alias) as (-> & -> & _).
    cbn [emptySnapshot statusMap primaryStatusMap]. rewrite !lookup_empty.
    destruct (decide (alias ∈ updated x)) as [Hin|Hin].
    - destruct (stoppedStatus _ alias), (demotedStatus _ alias);
        (split; [by intros [_ ?]|by intros ?; split]).
    - split; [tauto|]. by intros [[? ?]|[? ?]]. }
  split.
  - intros [Hnil|(alias & ti & f & Hin & Hg & -> & Hs)];
      [by apply elem_of_nil in Hnil|].
    exists alias, ti. split_and!; [|done|by apply Hkeys].
    by apply (goroutine_started _ _ _ _ _ _ _ Hp) in Hg as [? _].
  - intros (alias & ti & Hti & -> & Hk). right.
    apply Hkeys in Hk as [Hin Hs].
    destruct (Hupd alias Hin) as [[ti' f] Hg].
    pose proof (goroutine_started _ _ _ _ _ _ _ Hp Hg) as (Hti' & _ & _).
    exists alias, ti', f. split_and!; [done|done|congruence|done].
Qed.

Lemma fillStatus_count gs ran alias tabletInfo mustWaitFor res :
  alias ∉ ran →
  snapshotInv gs ran res →
  length (reachableTablets res)
  = (size (statusMap res) + size (primaryStatusMap res))%nat →
  length (reachableTablets (fillStatus alias tabletInfo mustWaitFor res).1.1)
  = (size (statusMap (fillStatus alias tabletInfo mustWaitFor res).1.1)
     + size (primaryStatusMap (fillStatus alias tabletInfo mustWaitFor res).1.1))%nat.
Proof.
  intros Hnew [_ Hkeys] Hcount.
  assert (statusMap res !! alias = None ∧ primaryStatusMap res !! alias = None)
    as [Hs Hp].
  { split; apply eq_None_not_Some; intros Hk;
      destruct (Hkeys alias) as [? _]; tauto. }
  destruct (fillStatus_snapshot alias tabletInfo mustWaitFor res)
    as [->|[(st & -> & -> & ->)|(ps & -> & -> & ->)]]; [done| |].
  - rewrite length_app, map_size_insert_None by done. cbn [length]. lia.
  - rewrite length_app, map_size_insert_None by done. cbn [length]. lia.
Qed.

Lemma runGoroutines_count gs order ran res :
  NoDup order →
  (∀ a, a ∈ order → a ∉ ran) →
  snapshotInv gs ran res →
  length (reachableTablets res)
  = (size (statusMap res) + size (primaryStatusMap res))%nat →
  length (reachableTablets (runGoroutines gs order res).1)
  = (size (statusMap (runGoroutines gs order res).1)
     + size (primaryStatusMap (runGoroutines gs order res).1))%nat.
Proof.
  revert ran res. induction order as [|a order IH]; intros ran res Hnd Hfresh Hinv Hc.
  - done.
  - apply NoDup_cons in Hnd as [Ha Hnd].
    assert (∀ b, b ∈ order → b ∉ a :: ran) as Hfresh'.
    { intros b Hb [->|Hin]%elem_of_cons; [done|].
      by apply (Hfresh b); [right|]. }
    destruct (gs !! a) as [[ti f]|] eqn:Hg.
    + rewrite (runGoroutines_step _ _ _ _ _ _ Hg). cbn [fst].
      apply (IH (a :: ran)); [done|done| |].
      * apply fillStatus_inv; [done| |done]. apply Hfresh. by left.
      * eapply fillStatus_count; [|done|done]. apply Hfresh. by left.
    + rewrite (runGoroutines_skip _ _ _ _ Hg).
      apply (IH (a :: ran)); [done|done| |done].
      eapply snapshotInv_weaken; [|done]. intros k Hk. by right.
Qed.

(** X10. The reachable tablets are counted once each: in a returned
    snapshot the length of [reachableTablets] is the number of keys of
    [statusMap] plus the number of keys of [primaryStatusMap]. *)
Theorem snapshot_reachableTablets_length
    tabletMap ig wf (durability : Durabler) wfa x out res :
  execution_of tabletMap ig wf wfa x →
  stopReplicationAndBuildStatusMaps tabletMap ig wf durability wfa x = Some out →
  snapshot out = Some res →
  length (reachableTablets res)
  = (size (statusMap res) + size (primaryStatusMap res))%nat.
Proof.
  intros (_ & Hnd & _) Hout Hres.
  rewrite (returned_snapshot _ _ _ _ _ _ _ _ Hout Hres). unfold builtSnapshot.
  apply (runGoroutines_count _ _ []); [done| | |done].
  - intros a _ Ha. by apply elem_of_nil in Ha.
  - split.
    + intros k [? Hk]. cbn [emptySnapshot statusMap] in Hk.
      by rewrite lookup_empty in Hk.
    + intros k [[? Hk]|[? Hk]];
        cbn [emptySnapshot statusMap primaryStatusMap] in Hk;
        by rewrite lookup_empty in Hk.
Qed.

End SnapshotReachable.

Section CallsAndOutcome.
Context {tmc : tmclient.TabletManagerClient} {ts : Topology}
        {dp : DurabilityPolicies} {se : SQLErrors}.

Lemma fillStatus_calls_detail alias tabletInfo mustWaitFor res ev :
  ev ∈ (fillStatus alias tabletInfo mustWaitFor res).2 →
  ev = EvStopReplicationAndGetStatus (TabletInfo.Tablet tabletInfo)
         StopReplicationMode_IOTHREADONLY
  ∨ (ev = EvDemotePrimary (TabletInfo.Tablet tabletInfo)
     ∧ ∃ err,
         tmclient.StopReplicationAndGetStatus (TabletInfo.Tablet tabletInfo)
           StopReplicationMode_IOTHREADONLY = Err err
         ∧ isNotReplicaError err = true).
Proof.
  unfold fillStatus, call, bind, ret.
  destruct (tmclient.StopReplicationAndGetStatus (TabletInfo.Tablet tabletInfo) _)
    as [st|err] eqn:Hs;
    [|destruct (isNotReplicaError err) eqn:Hnot;
      [destruct (tmclient.DemotePrimary (TabletInfo.Tablet tabletInfo)) as [ps|derr]|]];
    cbn [fst snd app]; intros Hin;
    repeat (apply elem_of_cons in Hin as [->|Hin]);
    try (by apply elem_of_nil in Hin);
    try (by left); right; (split; [done|]); by exists err.
Qed.

Lemma runGoroutines_calls_detail gs order res ev :
  ev ∈ (runGoroutines gs order res).2 →
  ∃ alias tabletInfo mustWaitFor,
    alias ∈ order
    ∧ gs !! alias = Some (tabletInfo, mustWaitFor)
    ∧ (ev = EvStopReplicationAndGetStatus (TabletInfo.Tablet tabletInfo)
              StopReplicationMode_IOTHREADONLY
       ∨ (ev = EvDemotePrimary (TabletInfo.Tablet tabletInfo)
          ∧ ∃ err,
              tmclient.StopReplicationAndGetStatus (TabletInfo.Tablet tabletInfo)
                StopReplicationMode_IOTHREADONLY = Err err
              ∧ isNotReplicaError err = true)).
Proof.
  revert res. induction order as [|a order IH]; intros res.
  - cbn. intros Hin. by apply elem_of_nil in Hin.
  - destruct (gs !! a) as [[ti f]|] eqn:Hg.
    + rewrite (runGoroutines_step _ _ _ _ _ _ Hg). cbn [snd].
      intros [Hin|Hin]%elem_of_app.
      * exists a, ti, f. split_and!; [by left|done|].
        by eapply fillStatus_calls_detail.
      * destruct (IH _ Hin) as (alias & ti' & f' & Hin' & Hrest).
        exists alias, ti', f'. split; [by right|done].
    + rewrite (runGoroutines_skip _ _ _ _ Hg). intros Hin.
      destruct (IH _ Hin) as (alias & ti' & f' & Hin' & Hrest).
      exists alias, ti', f'. split; [by right|done].
Qed.

(** The calls of a returned outcome: those of the goroutines, followed by
    the fencing check when more than one error was recorded. *)
Lemma returned_calls tabletMap ig wf (durability : Durabler) wfa x out w :
  waitOutcome tabletMap ig wf wfa x = Some w →
  stopReplicationAndBuildStatusMaps tabletMap ig wf durability wfa x = Some out →
  calls out
  = (builtSnapshot ig wf x).2
    ++ (if (length (concurrency.Errors (concurrency.recorder w)) <=? 1)%nat
        then []
        else [EvHaveRevoked (reachableTablets (builtSnapshot ig wf x).1)
                (allTablets (startedGoroutines ig wf x))]).
Proof.
  intros Hw.
  rewrite (stopReplicationAndBuildStatusMaps_unfold _ _ _ durability _ _ _ Hw).
  destruct (_ <=? _)%nat; [|destruct (negb _)]; intros [= <-]; cbn [calls];
    by rewrite ?app_nil_r.
Qed.

(** X11. Ignored tablets are left alone.  Every tablet-manager RPC in the
    log of a returned call is addressed to the tablet of a non-ignored
    entry of the tablet map whose goroutine has run; a stop-replication
    call always asks for the IO thread only, and a demotion is only issued
    on a tablet whose stop-replication call failed with the "not a
    replica" error. *)
Theorem stopReplicationAndBuildStatusMaps_calls
    tabletMap ig wf (durability : Durabler) wfa x out ev :
  execution_of tabletMap ig wf wfa x →
  stopReplicationAndBuildStatusMaps tabletMap ig wf durability wfa x = Some out →
  ev ∈ calls out →
  (∃ reachable all, ev = EvHaveRevoked reachable all)
  ∨ ∃ alias tabletInfo,
      tabletMap !! alias = Some tabletInfo
      ∧ (alias ∉ ig)
      ∧ alias ∈ updated x
      ∧ (ev = EvStopReplicationAndGetStatus (TabletInfo.Tablet tabletInfo)
                StopReplicationMode_IOTHREADONLY
         ∨ (ev = EvDemotePrimary (TabletInfo.Tablet tabletInfo)
            ∧ ∃ err,
                tmclient.StopReplicationAndGetStatus (TabletInfo.Tablet tabletInfo)
                  StopReplicationMode_IOTHREADONLY = Err err
                ∧ isNotReplicaError err = true)).
Proof.
  intros (Hp & _) Hout Hev.
  destruct (waitOutcome tabletMap ig wf wfa x) as [w|] eqn:Hw.
  2: { unfold stopReplicationAndBuildStatusMaps in Hout. by rewrite Hw in Hout. }
  rewrite (returned_calls _ _ _ _ _ _ _ _ Hw Hout) in Hev.
  apply elem_of_app in Hev as [Hev|Hev].
  - right. unfold builtSnapshot in Hev.
    apply runGoroutines_calls_detail in Hev as (alias & ti & f & Hin & Hg & Hcall).
    apply (goroutine_started _ _ _ _ _ _ _ Hp) in Hg as (Hti & Hig & _).
    by exists alias, ti.
  - left. destruct (_ <=? _)%nat; [by apply elem_of_nil in Hev|].
    apply list_elem_of_singleton in Hev as ->. by eexists _, _.
Qed.



(** X13. The caller gets a snapshot or an error, never both and never
    neither.  A returned call fails exactly when [Wait] recorded more than
    one error and the fencing check answered false; otherwise it returns
    the snapshot built by the goroutines and a nil error. *)
Theorem stopReplicationAndBuildStatusMaps_outcome
    tabletMap ig wf (durability : Durabler) wfa x out w :
  waitOutcome tabletMap ig wf wfa x = Some w →
  stopReplicationAndBuildStatusMaps tabletMap ig wf durability wfa x = Some out →
  (is_Some (returnedError out)
   ↔ (2 ≤ length (concurrency.Errors (concurrency.recorder w)))%nat
     ∧ haveRevoked durability (reachableTablets (builtSnapshot ig wf x).1)
         (allTablets (startedGoroutines ig wf x)) = false)
  ∧ (is_Some (returnedError out) → snapshot out = None)
  ∧ (returnedError out = None → snapshot out = Some (builtSnapshot ig wf x).1).
Proof.
  intros Hw.
  rewrite (stopReplicationAndBuildStatusMaps_unfold _ _ _ durability _ _ _ Hw).
  destruct (_ <=? _)%nat eqn:Hlen.
  - apply Nat.leb_le in Hlen. intros [= <-]. cbn [returnedError snapshot].
    split_and!; [|by intros [? ?]|done].
    split; [by intros [? ?]|]. intros [? _]. lia.
  - apply Nat.leb_gt in Hlen.
    destruct (haveRevoked durability _ _) eqn:Hrev; cbn [negb];
      intros [= <-]; cbn [returnedError snapshot].
    + split_and!; [|by intros [? ?]|done].
      split; [by intros [? ?]|]. by intros [_ ?].
    + unfold concurrency.AllErrorRecorder_Error.
      destruct (concurrency.Errors (concurrency.recorder w)) as [|e rest];
        [cbn in Hlen; lia|].
      cbn [head]. split_and!; [|done|done].
      split; [|by eexists]. intros _. split; [cbn [length] in *; lia|done].
Qed.

(** X14. A goroutine reports success exactly when it makes its tablet
    reachable.  If the message [fillStatus] sends carries no error, the
    tablet was appended to [reachableTablets]; if it carries an error, the
    snapshot is exactly as the goroutine found it. *)
Theorem fillStatus_success_iff_reachable alias tabletInfo mustWaitFor res :
  (concurrency.Err (fillStatus alias tabletInfo mustWaitFor res).1.2 = None
   ↔ reachableTablets (fillStatus alias tabletInfo mustWaitFor res).1.1
     = reachableTablets res ++ [TabletInfo.Tablet tabletInfo])
  ∧ (is_Some (concurrency.Err (fillStatus alias tabletInfo mustWaitFor res).1.2)
     ↔ (fillStatus alias tabletInfo mustWaitFor res).1.1 = res).
Proof.
  assert (∀ (l : list Tablet.t) t, l ++ [t] ≠ l) as Hgrow.
  { intros l t Heq. apply (f_equal length) in Heq.
    rewrite length_app in Heq. cbn in Heq. lia. }
  unfold fillStatus, call, bind, ret.
  destruct (tmclient.StopReplicationAndGetStatus (TabletInfo.Tablet tabletInfo) _)
    as [st|err];
    [|destruct (isNotReplicaError err);
      [destruct (tmclient.DemotePrimary (TabletInfo.Tablet tabletInfo)) as [ps|derr]|]];
    cbn [fst snd concurrency.Err reachableTablets].
  - split; [done|]. split; [by intros [? ?]|]. intros Heq.
    apply (f_equal reachableTablets) in Heq. cbn in Heq. by apply Hgrow in Heq.
  - split; [done|]. split; [by intros [? ?]|]. intros Heq.
    apply (f_equal reachableTablets) in Heq. cbn in Heq. by apply Hgrow in Heq.
  - split; [|done]. split; [done|]. intros Heq. symmetry in Heq.
    by apply Hgrow in Heq.
  - split; [|done]. split; [done|]. intros Heq. symmetry in Heq.
    by apply Hgrow in Heq.
Qed.

End CallsAndOutcome.

(** * Further properties of SetReplicationSource and of the launch loop *)

Section SetReplicationSourceMore.
Context {tmc : tmclient.TabletManagerClient} {ts : Topology}
        {dp : DurabilityPolicies}.

(** X15. When the replication source is set.  [SetReplicationSource]
    issues the set-replication-source RPC exactly when the shard primary,
    the keyspace's durability name and the durability policy are all
    found; the RPC is addressed to the tablet itself, names the alias of
    the shard primary as source and carries the policy's semi-sync answer
    for that primary and this tablet; it never asks to start replication.
    The function then returns what the RPC returns. *)
Theorem SetReplicationSource_rpc tablet :
  (∀ t parent semiSync,
     EvSetReplicationSource t parent semiSync ∈ (SetReplicationSource tablet).2
     ↔ ∃ shardPrimary durabilityName durability,
         GetShardPrimaryForTablet tablet = Ok shardPrimary
         ∧ GetKeyspaceDurability (Tablet.Keyspace tablet) = Ok durabilityName
         ∧ GetDurabilityPolicy durabilityName = Ok durability
         ∧ t = tablet
         ∧ parent = Tablet.Alias (TabletInfo.Tablet shardPrimary)
         ∧ semiSync
           = IsReplicaSemiSync durability (TabletInfo.Tablet shardPrimary) tablet)
  ∧ (∀ shardPrimary durabilityName durability,
       GetShardPrimaryForTablet tablet = Ok shardPrimary →
       GetKeyspaceDurability (Tablet.Keyspace tablet) = Ok durabilityName →
       GetDurabilityPolicy durabilityName = Ok durability →
       (SetReplicationSource tablet).1
       = tmclient.SetReplicationSource tablet
           (Tablet.Alias (TabletInfo.Tablet shardPrimary)) 0 "" false
           (IsReplicaSemiSync durability (TabletInfo.Tablet shardPrimary) tablet) 0).
Proof.
  unfold SetReplicationSource, call, bind, ret. split.
  - intros t parent semiSync.
    destruct (GetShardPrimaryForTablet tablet) as [sp|e1] eqn:H1.
    2: { cbn [fst snd app]. split.
         - intros Hin. apply list_elem_of_singleton in Hin. discriminate Hin.
         - intros (sp' & name' & d' & Hsp & _). discriminate Hsp. }
    destruct (GetKeyspaceDurability (Tablet.Keyspace tablet)) as [name|e2] eqn:H2.
    2: { cbn [fst snd app]. split.
         - intros Hin. repeat (apply elem_of_cons in Hin as [Heq|Hin];
                               [discriminate Heq|]).
           by apply elem_of_nil in Hin.
         - intros (sp' & name' & d' & _ & Hname & _). discriminate Hname. }
    destruct (GetDurabilityPolicy name) as [d|e3] eqn:H3.
    2: { cbn [fst snd app]. split.
         - intros Hin. repeat (apply elem_of_cons in Hin as [Heq|Hin];
                               [discriminate Heq|]).
           by apply elem_of_nil in Hin.
         - intros (sp' & name' & d' & _ & [= <-] & Hd & _). congruence. }
    cbn [fst snd app]. split.
    + intros Hin. do 4 (apply elem_of_cons in Hin as [Heq|Hin];
                        [discriminate Heq|]).
      apply list_elem_of_singleton in Hin. injection Hin as -> -> ->.
      by exists sp, name, d.
    + intros (sp' & name' & d' & [= <-] & [= <-] & Hd & -> & -> & ->).
      rewrite H3 in Hd. injection Hd as <-.
      do 4 right. by left.
  - intros sp name d -> -> ->. done.
Qed.

(** X16. Where an error of [SetReplicationSource] comes from.  A non-nil
    error is the error of the durability-name lookup, of the policy lookup
    or of the RPC, returned unchanged, and the shard primary was found: a
    failure to find the shard primary is never reported. *)
Theorem SetReplicationSource_error tablet e :
  (SetReplicationSource tablet).1 = Some e →
  ∃ shardPrimary,
    GetShardPrimaryForTablet tablet = Ok shardPrimary
    ∧ (GetKeyspaceDurability (Tablet.Keyspace tablet) = Err e
       ∨ ∃ durabilityName,
           GetKeyspaceDurability (Tablet.Keyspace tablet) = Ok durabilityName
           ∧ (GetDurabilityPolicy durabilityName = Err e
              ∨ ∃ durability,
                  GetDurabilityPolicy durabilityName = Ok durability
                  ∧ tmclient.SetReplicationSource tablet
                      (Tablet.Alias (TabletInfo.Tablet shardPrimary)) 0 "" false
                      (IsReplicaSemiSync durability
                         (TabletInfo.Tablet shardPrimary) tablet) 0
                    = Some e)).
Proof.
  unfold SetReplicationSource, call, bind, ret.
  destruct (GetShardPrimaryForTablet tablet) as [sp|e1]; [|done].
  destruct (GetKeyspaceDurability (Tablet.Keyspace tablet)) as [name|e2];
    cbn [fst].
  - destruct (GetDurabilityPolicy name) as [d|e3] eqn:H3; cbn [fst].
    + intros He. exists sp. split; [done|]. right. exists name. split; [done|].
      right. by exists d.
    + intros [= <-]. exists sp. split; [done|]. right. exists name.
      split; [done|]. by left.
  - intros [= <-]. exists sp. split; [done|]. by left.
Qed.

End SetReplicationSourceMore.

Section LaunchMore.
Context {tmc : tmclient.TabletManagerClient} {ts : Topology}
        {dp : DurabilityPolicies} {se : SQLErrors}.

Lemma numCandidates_dom (tabletMap : gmap string TabletInfo.t) (ig : gset string) :
  numCandidates tabletMap ig = Z.of_nat (size (dom tabletMap ∖ ig)).
Proof.
  unfold numCandidates. f_equal.
  rewrite <- (size_dom (D := gset string)). f_equal.
  apply dom_filter_L. intros k. rewrite elem_of_difference, elem_of_dom.
  split.
  - intros [[v Hv] Hk]. by exists v.
  - intros (v & Hv & Hk). split; [by exists v|done].
Qed.

(** X17. What the launch loop starts.  For every visit order of the tablet
    map, the loop starts one goroutine for each entry whose alias is not
    ignored, and for no other alias; the goroutine of an alias is flagged
    "must wait for" exactly when that alias is the one to wait for; and
    [numErrorsToWaitFor] is 1 when the alias to wait for is a non-ignored
    key of the tablet map, and 0 otherwise. *)
Theorem launchGoroutines_started tabletMap ig w range :
  range ≡ₚ map_to_list tabletMap →
  dom (goroutines (launchGoroutines ig w range)) = dom tabletMap ∖ ig
  ∧ Z.of_nat (size (goroutines (launchGoroutines ig w range)))
    = numCandidates tabletMap ig
  ∧ (∀ alias tabletInfo mustWaitFor,
       goroutines (launchGoroutines ig w range) !! alias
       = Some (tabletInfo, mustWaitFor) →
       tabletMap !! alias = Some tabletInfo ∧ (mustWaitFor = true ↔ alias = w))
  ∧ numErrorsToWaitFor (launchGoroutines ig w range)
    = (if bool_decide (is_Some (tabletMap !! w) ∧ w ∉ ig) then 1 else 0).
Proof.
  intros Hp. split_and!.
  - by apply started_dom.
  - rewrite numCandidates_dom, <- (started_dom _ _ w _ Hp). f_equal.
    symmetry. apply size_dom.
  - intros alias ti f Hg.
    apply (goroutine_started _ _ _ _ _ _ _ Hp) in Hg as (Hti & _ & ->).
    split; [done|]. rewrite bool_decide_eq_true. split; by intros ->.
  - by apply launchGoroutines_numErrorsToWaitFor.
Qed.

(** X18. The numbers handed to the task group.  [NumGoroutines], computed
    as the size of the tablet map minus the size of the ignored set, never
    exceeds the number of non-ignored tablets, which never exceeds
    [NumAllowedErrors].  When every ignored alias is a key of the tablet
    map, [NumGoroutines] is the number of non-ignored tablets and the
    required successes are that number, minus one unless
    [waitForAllTablets] is set. *)
Theorem buildErrorGroup_numbers
    (tabletMap : gmap string TabletInfo.t) (ig : gset string) wfa n :
  concurrency.NumGoroutines (buildErrorGroup tabletMap ig wfa n)
  ≤ numCandidates tabletMap ig
  ∧ numCandidates tabletMap ig
    ≤ concurrency.NumAllowedErrors (buildErrorGroup tabletMap ig wfa n)
  ∧ (ig ⊆ dom tabletMap →
     concurrency.NumGoroutines (buildErrorGroup tabletMap ig wfa n)
     = numCandidates tabletMap ig
     ∧ concurrency.NumRequiredSuccesses (buildErrorGroup tabletMap ig wfa n)
       = specRequiredSuccesses tabletMap ig wfa).
Proof.
  rewrite numCandidates_dom.
  cbn [buildErrorGroup concurrency.NumGoroutines concurrency.NumAllowedErrors].
  assert (size (dom tabletMap : gset string) = size tabletMap) as Hdom
    by apply size_dom.
  assert (size (dom tabletMap ∖ ig) ≤ size tabletMap)%nat as Hle.
  { rewrite <- Hdom. apply subseteq_size. intros k Hk.
    by apply elem_of_difference in Hk as [? _]. }
  assert (size tabletMap ≤ size ig + size (dom tabletMap ∖ ig))%nat as Hge.
  { rewrite <- Hdom. rewrite <- size_union_alt. apply subseteq_size.
    intros k Hk. apply elem_of_union. by right. }
  split_and!; [lia|lia|].
  intros Hsub. split.
  - rewrite size_difference by done. pose proof (subseteq_size _ _ Hsub). lia.
  - by apply requiredSuccesses_ignored_in_map.
Qed.

End LaunchMore.

Section MoreWitnesses.
Import Sample.

Lemma snapshot_statusMap_contents_witness :
  statusMap (builtSnapshot ∅ None run3).1 !! aliasOf 100 = Some answer100
  ↔ aliasOf 100 ∈ updated run3
    ∧ ∃ tabletInfo,
        cluster3 !! aliasOf 100 = Some tabletInfo
        ∧ tmclient.StopReplicationAndGetStatus (TabletInfo.Tablet tabletInfo)
            StopReplicationMode_IOTHREADONLY = Ok answer100.
Proof.
  apply (snapshot_statusMap_contents cluster3 ∅ None twoReachable false run3 out3).
  - apply execution_of_checked; [reflexivity | vm_compute; reflexivity].
  - vm_compute. reflexivity.
  - reflexivity.
Defined.

Lemma snapshot_primaryStatusMap_contents_witness :
  primaryStatusMap (builtSnapshot ∅ None run3).1 !! aliasOf 102 = Some answer102
  ↔ aliasOf 102 ∈ updated run3
    ∧ ∃ tabletInfo err,
        cluster3 !! aliasOf 102 = Some tabletInfo
        ∧ tmclient.StopReplicationAndGetStatus (TabletInfo.Tablet tabletInfo)
            StopReplicationMode_IOTHREADONLY = Err err
        ∧ isNotReplicaError err = true
        ∧ tmclient.DemotePrimary (TabletInfo.Tablet tabletInfo) = Ok answer102.
Proof.
  apply (snapshot_primaryStatusMap_contents cluster3 ∅ None twoReachable false
           run3 out3).
  - apply execution_of_checked; [reflexivity | vm_compute; reflexivity].
  - vm_compute. reflexivity.
  - reflexivity.
Defined.

Lemma snapshot_tabletsBackupState_witness :
  tabletsBackupState (builtSnapshot ∅ None run3).1 !! aliasOf 101
  = isTakingBackup <$> statusMap (builtSnapshot ∅ None run3).1 !! aliasOf 101.
Proof.
  apply (snapshot_tabletsBackupState cluster3 ∅ None twoReachable false run3 out3).
  - vm_compute. reflexivity.
  - reflexivity.
Defined.

Lemma snapshot_reachableTablets_contents_witness :
  tablet 102 ∈ reachableTablets (builtSnapshot ∅ None run3).1
  ↔ ∃ alias tabletInfo,
      cluster3 !! alias = Some tabletInfo
      ∧ tablet 102 = TabletInfo.Tablet tabletInfo
      ∧ (alias ∈ dom (statusMap (builtSnapshot ∅ None run3).1)
         ∨ alias ∈ dom (primaryStatusMap (builtSnapshot ∅ None run3).1)).
Proof.
  apply (snapshot_reachableTablets_contents cluster3 ∅ None twoReachable false
           run3 out3).
  - apply execution_of_checked; [reflexivity | vm_compute; reflexivity].
  - vm_compute. reflexivity.
  - reflexivity.
Defined.

Lemma snapshot_reachableTablets_length_witness :
  length (reachableTablets (builtSnapshot ∅ None run3).1)
  = (size (statusMap (builtSnapshot ∅ None run3).1)
     + size (primaryStatusMap (builtSnapshot ∅ None run3).1))%nat.
Proof.
  apply (snapshot_reachableTablets_length cluster3 ∅ None twoReachable false
           run3 out3).
  - apply execution_of_checked; [reflexivity | vm_compute; reflexivity].
  - vm_compute. reflexivity.
  - reflexivity.
Defined.

Lemma stopReplicationAndBuildStatusMaps_calls_witness :
  (∃ reachable all, EvDemotePrimary (tablet 102) = EvHaveRevoked reachable all)
  ∨ ∃ alias tabletInfo,
      cluster3 !! alias = Some tabletInfo
      ∧ (alias ∉ (∅ : gset string))
      ∧ alias ∈ updated run3
      ∧ (EvDemotePrimary (tablet 102)
         = EvStopReplicationAndGetStatus (TabletInfo.Tablet tabletInfo)
             StopReplicationMode_IOTHREADONLY
         ∨ (EvDemotePrimary (tablet 102)
            = EvDemotePrimary (TabletInfo.Tablet tabletInfo)
            ∧ ∃ err,
                tmclient.StopReplicationAndGetStatus (TabletInfo.Tablet tabletInfo)
                  StopReplicationMode_IOTHREADONLY = Err err
                ∧ isNotReplicaError err = true)).
Proof.
  apply (stopReplicationAndBuildStatusMaps_calls cluster3 ∅ None twoReachable
           false run3 out3).
  - apply execution_of_checked; [reflexivity | vm_compute; reflexivity].
  - vm_compute. reflexivity.
  - vm_compute. right. left.
Defined.


Lemma stopReplicationAndBuildStatusMaps_outcome_witness :
  (is_Some (returnedError out1)
   ↔ (2 ≤ length (concurrency.Errors (concurrency.recorder wait1)))%nat
     ∧ haveRevoked twoReachable (reachableTablets (builtSnapshot ∅ None run1).1)
         (allTablets (startedGoroutines ∅ None run1)) = false)
  ∧ (is_Some (returnedError out1) → snapshot out1 = None)
  ∧ (returnedError out1 = None
     → snapshot out1 = Some (builtSnapshot ∅ None run1).1).
Proof.
  apply (stopReplicationAndBuildStatusMaps_outcome cluster1 ∅ None twoReachable
           false run1 out1 wait1).
  - vm_compute. reflexivity.
  - vm_compute. reflexivity.
Defined.

Lemma SetReplicationSource_error_witness :
  ∃ shardPrimary,
    @GetShardPrimaryForTablet topologyWithPrimary orphanTablet = Ok shardPrimary
    ∧ (@GetKeyspaceDurability topologyWithPrimary (Tablet.Keyspace orphanTablet)
       = Err (Opaque_error "node doesn't exist")
       ∨ ∃ durabilityName,
           @GetKeyspaceDurability topologyWithPrimary (Tablet.Keyspace orphanTablet)
           = Ok durabilityName
           ∧ (GetDurabilityPolicy durabilityName
              = Err (Opaque_error "node doesn't exist")
              ∨ ∃ durability,
                  GetDurabilityPolicy durabilityName = Ok durability
                  ∧ tmclient.SetReplicationSource orphanTablet
                      (Tablet.Alias (TabletInfo.Tablet shardPrimary)) 0 "" false
                      (IsReplicaSemiSync durability
                         (TabletInfo.Tablet shardPrimary) orphanTablet) 0
                    = Some (Opaque_error "node doesn't exist"))).
Proof.
  apply (@SetReplicationSource_error tmc topologyWithPrimary policies orphanTablet).
  vm_compute. reflexivity.
Defined.

Lemma launchGoroutines_started_witness :
  Z.of_nat (size (goroutines (launchGoroutines {[aliasOf 101]} (aliasOf 102)
                                (map_to_list cluster3))))
  = numCandidates cluster3 {[aliasOf 101]}
  ∧ numErrorsToWaitFor (launchGoroutines {[aliasOf 101]} (aliasOf 102)
                          (map_to_list cluster3)) = 1.
Proof.
  destruct (launchGoroutines_started cluster3 {[aliasOf 101]} (aliasOf 102)
              (map_to_list cluster3)) as (_ & Hsize & _ & Hn).
  - reflexivity.
  - split; [exact Hsize|]. rewrite Hn. vm_compute. reflexivity.
Defined.

Lemma buildErrorGroup_numbers_witness :
  concurrency.NumGoroutines (buildErrorGroup cluster3 {[aliasOf 101]} false 0)
  = numCandidates cluster3 {[aliasOf 101]}
  ∧ concurrency.NumRequiredSuccesses
      (buildErrorGroup cluster3 {[aliasOf 101]} false 0)
    = specRequiredSuccesses cluster3 {[aliasOf 101]} false.
Proof.
  destruct (buildErrorGroup_numbers cluster3 {[aliasOf 101]} false 0)
    as (_ & _ & H).
  apply H. apply singleton_subseteq_l, elem_of_dom.
  eexists. vm_compute. reflexivity.
Defined.

End MoreWitnesses.
